(** * Label layout and rendering engine of [backend/label_generator.py]

    A shallow embedding of [AdvancedLabelGenerator] and of the part of
    [backend/main.py] that drives it.  Python [int] is [Z], Python [float] is
    the kernel's binary64 [float] (same rounding as CPython), [str] is
    [string].  Exceptions are values of [exn]; every call on the canvas is
    logged, in order, in the trace that a computation carries.

    The first part holds the embedding of the code, the definitions that
    follow the words of the specification ([placementFor], [ceil_div],
    [decimalString], [within_page], ...) and the vocabulary of the proofs.
    The second part holds the proofs: the monad and the loop, pagination and
    failure, the registry and the text of a label, geometry, the decimal
    numeral, and the monotonicity of the binary64 product on which the size
    of the QR glyph rests. *)

From Stdlib Require Import ZArith List String Ascii Bool Lia Floats.
From Stdlib Require Import DecimalString.
From Stdlib Require DecimalFacts DecimalPos DecimalN DecimalZ.
From Stdlib Require QArith Qround.
Import ListNotations.

Set Warnings "-inexact-float".
Local Open Scope string_scope.
Local Open Scope list_scope.
Local Open Scope Z_scope.

(** ** Exceptions and the canvas trace *)

Inductive exn : Type :=
| ValueError (msg : string)
| ZeroDivisionError
| OverflowError            (* int too large to convert to float *)
| LibraryError (class_name message : string).
                           (* an exception of any other class, raised
                              inside reportlab *)

(** What [generate_qrcode] builds: [Drawing(size, size, transform=[a,0,0,d,0,0])]
    holding one QR widget for [qr_value]. *)
Record Drawing : Type := mkDrawing {
  drawing_width : float;
  drawing_height : float;
  transform : float * Z * Z * float * Z * Z;
  qr_value : string
}.

(** What [code128.Code128(value, barHeight=.., barWidth=..)] is built from. *)
Record Code128 : Type := mkCode128 {
  barcode_value : string;
  barHeight : float;
  barWidth : float
}.

(** One constructor per call that the generator makes on the canvas [c]. *)
Inductive canvas_op : Type :=
| setFont (psfontname : string) (size : Z)
| drawCentredString (x y : float) (text : string)
| renderPDF_draw (d : Drawing) (x y : float)
| drawOn (b : Code128) (x y : float)
| showPage
| save.

(** A computation either raises or returns, and has logged canvas calls
    either way. *)
Definition M (A : Type) : Type := (exn + A) * list canvas_op.

Definition ret {A} (a : A) : M A := (inr a, []).
Definition raise {A} (e : exn) : M A := (inl e, []).
Definition call (op : canvas_op) : M unit := (inr tt, [op]).

Definition bind {A B} (m : M A) (k : A -> M B) : M B :=
  match m with
  | (inl e, tr) => (inl e, tr)
  | (inr a, tr) => let (r, tr') := k a in (r, tr ++ tr')
  end.

Definition outcome {A} (m : M A) : exn + A := fst m.
Definition trace {A} (m : M A) : list canvas_op := snd m.

Declare Scope py_scope.
Delimit Scope py_scope with py.
Notation "x <- c1 ;; c2" := (bind c1 (fun x => c2))
  (at level 100, c1 at next level, right associativity) : py_scope.
Notation "' pat <- c1 ;; c2" := (bind c1 (fun v => match v with pat => c2 end))
  (at level 100, pat pattern, c1 at next level, right associativity) : py_scope.
Notation "c1 ;; c2" := (bind c1 (fun _ => c2))
  (at level 100, right associativity) : py_scope.
Local Open Scope py_scope.

(** ** Python numbers *)

(** [a // b] and [a % b] on [int]: floor division, remainder with the sign of
    the divisor, [ZeroDivisionError] on a zero divisor. *)
Definition floordiv (a b : Z) : M Z :=
  if b =? 0 then raise ZeroDivisionError else ret (a / b).
Definition pymod (a b : Z) : M Z :=
  if b =? 0 then raise ZeroDivisionError else ret (a mod b).

(** The conversion applied to an [int] operand that meets a [float]: the
    nearest binary64 value, ties to even, [OverflowError] beyond the range. *)
Definition nearest_float (z : Z) : float :=
  SF2Prim (binary_normalize prec emax z 0 false).
Definition float_of_int (z : Z) : M float :=
  let f := nearest_float z in
  if is_infinity f then raise OverflowError else ret f.

(** [n * f] and [f - n] with [n] an [int] and [f] a [float]. *)
Definition int_mul_float (n : Z) (f : float) : M float :=
  x <- float_of_int n ;; ret (x * f)%float.
Definition float_sub_int (f : float) (n : Z) : M float :=
  x <- float_of_int n ;; ret (f - x)%float.

(** [a / b] on [float]. *)
Definition truediv (a b : float) : M float :=
  if is_zero b then raise ZeroDivisionError else ret (a / b)%float.

(** [min(a, b)]: the first argument unless the second is smaller. *)
Definition pymin (a b : float) : float := if (b <? a)%float then b else a.

(** [range(a, b)] and its [len].  (CPython refuses the [len] of a range of
    more than [sys.maxsize] elements; [generate_pdf] calls [len] only after
    it has drawn a label for each element, so that limit is out of reach.) *)
Definition py_range (a b : Z) : list Z :=
  map (fun i => a + Z.of_nat i) (seq 0 (Z.to_nat (b - a))).
Definition len {A} (l : list A) : Z := Z.of_nat (List.length l).

(** The string that [str(n)] is for an [int], when the conversion is made. *)
Definition str_of_int (n : Z) : string := NilZero.string_of_int (Z.to_int n).

(** CPython refuses to convert to [str] an [int] of more than
    [sys.get_int_max_str_digits()] decimal digits, the sign not counted: 4300
    of them unless the interpreter is configured otherwise.  The conversion
    of an f-string field, [format(n, '')], is the same one. *)
Definition int_max_str_digits : Z := 4300.

Definition str_digits (n : Z) : Z :=
  Z.of_nat (String.length (str_of_int (Z.abs n))).

Definition int_max_str_digits_error : exn :=
  ValueError
    "Exceeds the limit (4300 digits) for integer string conversion; use sys.set_int_max_str_digits() to increase the limit".

Definition py_str_int (n : Z) : exn + string :=
  if int_max_str_digits <? str_digits n
  then inl int_max_str_digits_error
  else inr (str_of_int n).

(** [s.lower()] on the ASCII letters.  Python also lower-cases the letters
    outside ASCII, which are kept here as they are, so the stored [code_type]
    of such a string is not Python's; whether it equals ['qrcode'], which is
    all that the generator asks of it, is the same, since no character
    outside ASCII has a letter of ['qrcode'] for its lower case. *)
Definition lower_ascii (c : ascii) : ascii :=
  let n := nat_of_ascii c in
  if ((65 <=? n) && (n <=? 90))%nat then ascii_of_nat (n + 32) else c.
Fixpoint lower (s : string) : string :=
  match s with
  | EmptyString => EmptyString
  | String c s' => String (lower_ascii c) (lower s')
  end.

(** ** reportlab constants: [lib.units] and [lib.pagesizes] *)

Definition inch : float := 72.0.
Definition cm : float := (inch / 2.54)%float.
Definition mm : float := (cm * 0.1)%float.
Definition letter : float * float := (8.5 * inch, 11 * inch)%float.
Definition A4 : float * float := (210 * mm, 297 * mm)%float.

(** ** The glyph library

    [qr.QrCodeWidget] and [code128.Code128] are reportlab's.  The generator
    only depends on whether they accept a string and, for the QR widget, on
    the bounds [(x0, y0, x1, y1)] it reports.  For a string that it does not
    accept the library raises an exception of its own choice: the generator
    has no [try] around these calls and no exception class of its own, so that
    exception is what the caller of [generate_pdf] gets. *)
Class GlyphProvider : Type := {
  QrCodeWidget_getBounds : string -> option (float * float * float * float);
  QrCodeWidget_error : string -> exn;
  Code128_accepts : string -> bool;
  Code128_error : string -> exn
}.

(** ** Label format presets *)

Record format_spec : Type := mkFormat {
  name : string;
  label_width : float;
  label_height : float;
  labels_per_row : Z;
  labels_per_column : Z;
  left_margin : float;
  top_margin : float;
  horizontal_gap : float;
  vertical_gap : Z
}.

Definition avery5160 : format_spec := {|
  name := "Avery 5160 (30 labels)";
  label_width := (2.625 * inch)%float;
  label_height := (1 * inch)%float;
  labels_per_row := 3;
  labels_per_column := 10;
  left_margin := (0.1875 * inch)%float;
  top_margin := (0.5 * inch)%float;
  horizontal_gap := (0.125 * inch)%float;
  vertical_gap := 0
|}.

Definition avery5161 : format_spec := {|
  name := "Avery 5161 (20 labels)";
  label_width := (4 * inch)%float;
  label_height := (1 * inch)%float;
  labels_per_row := 2;
  labels_per_column := 10;
  left_margin := (0.15625 * inch)%float;
  top_margin := (0.5 * inch)%float;
  horizontal_gap := (0.1875 * inch)%float;
  vertical_gap := 0
|}.

Definition avery5163 : format_spec := {|
  name := "Avery 5163 (10 labels)";
  label_width := (4 * inch)%float;
  label_height := (2 * inch)%float;
  labels_per_row := 2;
  labels_per_column := 5;
  left_margin := (0.15625 * inch)%float;
  top_margin := (0.5 * inch)%float;
  horizontal_gap := (0.1875 * inch)%float;
  vertical_gap := 0
|}.

Definition LABEL_FORMATS : list (string * format_spec) :=
  [ ("avery5160", avery5160); ("avery5161", avery5161); ("avery5163", avery5163) ].

(** [d[key]] with [key in d] folded in: [None] when the key is absent. *)
Fixpoint dict_get {V} (d : list (string * V)) (key : string) : option V :=
  match d with
  | [] => None
  | (k, v) :: d' => if String.eqb key k then Some v else dict_get d' key
  end.

(** ** [class AdvancedLabelGenerator] *)

Module AdvancedLabelGenerator.

(** The attributes that [__init__] sets on [self]. *)
Record self_t : Type := mkSelf {
  start_code : Z;
  end_code : Z;
  code_type : string;
  prefix : string;
  suffix : string;
  self_label_width : float;
  self_label_height : float;
  self_labels_per_row : Z;
  self_labels_per_column : Z;
  self_left_margin : float;
  self_top_margin : float;
  self_horizontal_gap : float;
  self_vertical_gap : Z;
  format_name : string
}.

Definition init (start_code end_code : Z) (code_type label_format prefix suffix : string)
  : M self_t :=
  match dict_get LABEL_FORMATS label_format with
  | Some format_spec =>
      ret {| start_code := start_code;
             end_code := end_code;
             code_type := lower code_type;
             prefix := prefix;
             suffix := suffix;
             self_label_width := label_width format_spec;
             self_label_height := label_height format_spec;
             self_labels_per_row := labels_per_row format_spec;
             self_labels_per_column := labels_per_column format_spec;
             self_left_margin := left_margin format_spec;
             self_top_margin := top_margin format_spec;
             self_horizontal_gap := horizontal_gap format_spec;
             self_vertical_gap := vertical_gap format_spec;
             format_name := name format_spec |}
  | None => raise (ValueError ("Unknown label format: " ++ label_format)%string)
  end.

(** [f"{self.prefix}{code_value}{self.suffix}"]: the string that the
    f-string builds once [code_value] is converted.  The drawing code below
    is modelled with this string, that is, for the identifiers that [str]
    converts; [format_code_call] has the refusal of the longer ones. *)
Definition format_code (self : self_t) (code_value : Z) : string :=
  String.concat "" [prefix self; str_of_int code_value; suffix self].

(** The call [self.format_code(code_value)] with the conversion of
    [code_value] that the f-string makes first, and which can fail. *)
Definition format_code_call (self : self_t) (code_value : Z) : exn + string :=
  match py_str_int code_value with
  | inl e => inl e
  | inr s => inr (String.concat "" [prefix self; s; suffix self])
  end.

Section WithGlyphs.
Context {glyphs : GlyphProvider}.

Definition generate_qrcode (self : self_t) (code_value : Z) (size : float) : M Drawing :=
  let formatted_code := format_code self code_value in
  match QrCodeWidget_getBounds formatted_code with
  | None => raise (QrCodeWidget_error formatted_code)
  | Some (b0, b1, b2, b3) =>
      let width := (b2 - b0)%float in
      let height := (b3 - b1)%float in
      sx <- truediv size width ;;
      sy <- truediv size height ;;
      ret {| drawing_width := size;
             drawing_height := size;
             transform := (sx, 0, 0, sy, 0, 0);
             qr_value := formatted_code |}
  end.

(** Lines 118-120 of [draw_label]: origin and side of the QR glyph. *)
Definition qr_box (self : self_t) (x y : float) : float * float * float :=
  let qr_size := pymin (self_label_width self * 0.7) (self_label_height self * 0.7) in
  let qr_x := (x + (self_label_width self - qr_size) / 2)%float in
  let qr_y := (y + 0.1 * inch)%float in
  (qr_x, qr_y, qr_size).

(** Lines 124-127 of [draw_label]: origin, drawable width and height of the
    linear barcode. *)
Definition barcode_box (self : self_t) (x y : float) : float * float * float * float :=
  let barcode_width := (self_label_width self - 0.2 * inch)%float in
  let barcode_height := (self_label_height self * 0.5)%float in
  let barcode_x := (x + (self_label_width self - barcode_width) / 2)%float in
  let barcode_y := (y + 0.2 * inch)%float in
  (barcode_x, barcode_y, barcode_width, barcode_height).

Definition draw_label (self : self_t) (x y : float) (code_value : Z) : M unit :=
  let formatted_code := format_code self code_value in
  call (setFont "Helvetica-Bold" 9) ;;
  let text_x := (x + self_label_width self / 2)%float in
  let text_y := (y + self_label_height self - 0.15 * inch)%float in
  call (drawCentredString text_x text_y ("ID: " ++ formatted_code)%string) ;;
  if String.eqb (code_type self) "qrcode" then
    let '(qr_x, qr_y, qr_size) := qr_box self x y in
    qr_drawing <- generate_qrcode self code_value qr_size ;;
    call (renderPDF_draw qr_drawing qr_x qr_y)
  else
    let '(barcode_x, barcode_y, barcode_width, barcode_height) := barcode_box self x y in
    if Code128_accepts formatted_code then
      let barcode := {| barcode_value := formatted_code;
                        barHeight := (barcode_height * 0.8)%float;
                        barWidth := 0.9%float |} in
      call (drawOn barcode barcode_x barcode_y)
    else raise (Code128_error formatted_code).

(** Lines 143-150 of [generate_pdf]: row, column and origin of the label
    numbered [label_count]. *)
Definition label_position (self : self_t) (page_height : float) (label_count : Z)
  : M (Z * Z * float * float) :=
  on_sheet <- pymod label_count (self_labels_per_row self * self_labels_per_column self) ;;
  row <- floordiv on_sheet (self_labels_per_row self) ;;
  col <- pymod label_count (self_labels_per_row self) ;;
  dx <- int_mul_float col (self_label_width self + self_horizontal_gap self) ;;
  let x := (self_left_margin self + dx)%float in
  dy <- int_mul_float (row + 1) (self_label_height self) ;;
  y <- float_sub_int (page_height - self_top_margin self - dy) (row * self_vertical_gap self) ;;
  ret (row, col, x, y).

(** One turn of the [for code in codes] loop; returns the new [label_count]. *)
Definition loop_body (self : self_t) (page_height : float) (label_count code : Z) : M Z :=
  '(_, _, x, y) <- label_position self page_height label_count ;;
  draw_label self x y code ;;
  let label_count := label_count + 1 in
  r <- pymod label_count (self_labels_per_row self * self_labels_per_column self) ;;
  (if r =? 0 then call showPage else ret tt) ;;
  ret label_count.

Fixpoint for_code_in (self : self_t) (page_height : float) (codes : list Z)
  (label_count : Z) : M Z :=
  match codes with
  | [] => ret label_count
  | code :: codes' =>
      label_count <- loop_body self page_height label_count code ;;
      for_code_in self page_height codes' label_count
  end.

Definition generate_pdf (self : self_t) (output_filename : string)
  (page_size : float * float) : M (Z * Z) :=
  let '(page_width, page_height) := page_size in
  let codes := py_range (start_code self) (end_code self + 1) in
  let label_count := 0 in
  for_code_in self page_height codes label_count ;;
  call save ;;
  q <- floordiv (len codes - 1) (self_labels_per_row self * self_labels_per_column self) ;;
  let total_pages := q + 1 in
  ret (len codes, total_pages).

End WithGlyphs.
End AdvancedLabelGenerator.

(** ** The part of [generate_labels] in [backend/main.py] that calls the generator

    File naming, the response record and the [except] clause (which re-raises
    any exception as an HTTP 500 whose detail is [str(e)]) are left out. *)

Record LabelRequest : Type := mkRequest {
  req_start_code : Z;
  req_end_code : Z;
  req_code_type : string;
  req_label_format : string;
  req_prefix : string;
  req_suffix : string;
  req_page_size : string
}.

Definition generate_labels {glyphs : GlyphProvider} (request : LabelRequest)
  (filepath : string) : M (Z * Z) :=
  let page_size := if String.eqb (req_page_size request) "a4" then A4 else letter in
  generator <- AdvancedLabelGenerator.init
                 (req_start_code request) (req_end_code request)
                 (req_code_type request) (req_label_format request)
                 (req_prefix request) (req_suffix request) ;;
  AdvancedLabelGenerator.generate_pdf generator filepath page_size.

(** ** Reading a trace *)

(** A label is complete once its glyph has been drawn. *)
Definition is_glyph (op : canvas_op) : bool :=
  match op with
  | renderPDF_draw _ _ _ | drawOn _ _ _ => true
  | _ => false
  end.

Definition labels_on (tr : list canvas_op) : Z :=
  len (filter is_glyph tr).

(** For each [showPage] of the trace, the number of labels completed before
    it, counting from [drawn]. *)
Fixpoint page_breaks_from (drawn : Z) (tr : list canvas_op) : list Z :=
  match tr with
  | [] => []
  | showPage :: tr' => drawn :: page_breaks_from drawn tr'
  | op :: tr' => page_breaks_from (if is_glyph op then drawn + 1 else drawn) tr'
  end.

Definition page_breaks (tr : list canvas_op) : list Z := page_breaks_from 0 tr.

(** The multiples of [p] among [lo, lo+1, ..., hi-1]. *)
Definition multiples_in (p lo hi : Z) : list Z :=
  filter (fun j => j mod p =? 0) (py_range lo hi).

(** reportlab's [Canvas], as far as pages go: drawing calls accumulate in the
    pending page, [showPage] closes it, and [save] first closes the pending
    page if (and only if) something was drawn on it, then writes the
    document.  The result is the list of pages of the document written, if
    one is: a canvas that is never saved writes nothing. *)
Fixpoint pdf_pages_from (pending : list canvas_op) (tr : list canvas_op)
  : option (list (list canvas_op)) :=
  match tr with
  | [] => None
  | showPage :: tr' => option_map (cons pending) (pdf_pages_from [] tr')
  | save :: _ => Some (match pending with [] => [] | _ => [pending] end)
  | op :: tr' => pdf_pages_from (pending ++ [op]) tr'
  end.

Definition pdf_pages (tr : list canvas_op) : option (list (list canvas_op)) :=
  pdf_pages_from [] tr.

(** ** The layout calculator as the specification words it (section 4.3) *)

Record LabelPlacement : Type := mkPlacement {
  placement_index : Z;
  placement_row : Z;
  placement_col : Z;
  placement_x : float;
  placement_y : float;
  placement_page : Z
}.

Section SheetFormat.
Import AdvancedLabelGenerator.

(** The specification's names for the fields of a sheet format. *)
Definition columnsPerSheet (format : self_t) : Z := self_labels_per_row format.
Definition rowsPerSheet (format : self_t) : Z := self_labels_per_column format.
Definition perSheet (format : self_t) : Z := columnsPerSheet format * rowsPerSheet format.

Definition placementFor (format : self_t) (index : Z) (pageHeight : float)
  : M LabelPlacement :=
  let indexOnSheet := index mod perSheet format in
  let page := index / perSheet format in
  let row := indexOnSheet / columnsPerSheet format in
  let col := indexOnSheet mod columnsPerSheet format in
  dx <- int_mul_float col (self_label_width format + self_horizontal_gap format) ;;
  let x := (self_left_margin format + dx)%float in
  dy <- int_mul_float (row + 1) (self_label_height format) ;;
  y <- float_sub_int (pageHeight - self_top_margin format - dy)
                     (row * self_vertical_gap format) ;;
  ret {| placement_index := index; placement_row := row; placement_col := col;
         placement_x := x; placement_y := y; placement_page := page |}.

End SheetFormat.

(** ** A glyph library to run the generator with

    It accepts the strings made of ASCII characters only and reports a square
    of side 58 as the bounds of every QR widget.  Its exceptions say what
    went wrong and do not quote the string. *)
Definition is_ascii_string (s : string) : bool :=
  forallb (fun c => (nat_of_ascii c <? 128)%nat) (list_ascii_of_string s).

Definition ascii_glyphs : GlyphProvider := {|
  QrCodeWidget_getBounds :=
    fun s => if is_ascii_string s then Some (0, 0, 58, 58)%float else None;
  QrCodeWidget_error := fun _ => ValueError "character outside the symbology";
  Code128_accepts := is_ascii_string;
  Code128_error := fun _ => ValueError "character outside the symbology"
|}.

(** A library that accepts the strings of at most six characters, as a
    symbology of bounded capacity would; its exception does not quote the
    string either. *)
Definition short_glyphs : GlyphProvider := {|
  QrCodeWidget_getBounds :=
    fun s => if (String.length s <=? 6)%nat then Some (0, 0, 58, 58)%float else None;
  QrCodeWidget_error := fun _ => ValueError "code length overflow";
  Code128_accepts := fun s => (String.length s <=? 6)%nat;
  Code128_error := fun _ => ValueError "code length overflow"
|}.

(** ** Geometry containment (section 8)

    The rectangle of a label whose origin is [(x, y)] lies on the page. *)
Definition within_page (self : AdvancedLabelGenerator.self_t)
  (page_size : float * float) (x y : float) : bool :=
  ((0 <=? x) && (x + AdvancedLabelGenerator.self_label_width self <=? fst page_size)
   && (0 <=? y) && (y + AdvancedLabelGenerator.self_label_height self <=? snd page_size))%float.

(** The box of origin [(bx, by)], width [bw] and height [bh] lies within the
    rectangle of the label whose origin is [(x, y)]. *)
Definition inside_label (self : AdvancedLabelGenerator.self_t)
  (x y bx by' bw bh : float) : bool :=
  ((x <=? bx) && (bx + bw <=? x + AdvancedLabelGenerator.self_label_width self)
   && (y <=? by') && (by' + bh <=? y + AdvancedLabelGenerator.self_label_height self))%float.

(** ** The width of a Code 128 symbol (ISO/IEC 15417)

    A symbol is a start character, the data characters, a check character
    and the stop character.  Every character is 11 modules wide and the stop
    13; a data character stands for one character of the string or, in code
    set C, for two digits.  So the symbol of a string of [n] ASCII characters
    has at least [11 * (ceil(n / 2) + 2) + 13] modules, whatever the encoder
    and without any quiet zone, and each module is [barWidth] wide. *)
Definition code128_least_modules (value : string) : Z :=
  11 * ((Z.of_nat (String.length value) + 1) / 2 + 2) + 13.

Definition code128_least_width (b : Code128) : float :=
  (nearest_float (code128_least_modules (barcode_value b)) * barWidth b)%float.

(** ** The generators and requests of [backend/test_api.py] *)

Definition barcode_request : LabelRequest :=
  mkRequest 1 10 "barcode" "avery5160" "TEST-" "" "letter".
Definition qrcode_request : LabelRequest :=
  mkRequest 100 120 "qrcode" "avery5163" "QR-" "-2024" "letter".

Definition generator_with (f : format_spec) (start_code end_code : Z)
  (code_type prefix suffix : string) : AdvancedLabelGenerator.self_t :=
  AdvancedLabelGenerator.mkSelf start_code end_code code_type prefix suffix
    (label_width f) (label_height f) (labels_per_row f) (labels_per_column f)
    (left_margin f) (top_margin f) (horizontal_gap f) (vertical_gap f) (name f).

Definition barcode_generator : AdvancedLabelGenerator.self_t :=
  generator_with avery5160 1 10 "barcode" "TEST-" "".
Definition qrcode_generator : AdvancedLabelGenerator.self_t :=
  generator_with avery5163 100 120 "qrcode" "QR-" "-2024".

(** A generator with a prefix and a suffix of twenty characters each, the
    longest that [LabelRequest] lets through. *)
Definition long_code_generator : AdvancedLabelGenerator.self_t :=
  generator_with avery5160 999990 999999 "barcode"
    "PARTICIPANT-2024-ID-" "-SITE-A-COHORT-B-001".

(** ** When the glyph library goes along *)

Section Acceptance.
Import AdvancedLabelGenerator.
Context {glyphs : GlyphProvider}.

(** The library accepts the formatted code of [code_value], for the kind of
    glyph that [self] draws. *)
Definition accepts (self : self_t) (code_value : Z) : bool :=
  if String.eqb (code_type self) "qrcode" then
    match QrCodeWidget_getBounds (format_code self code_value) with
    | Some _ => true
    | None => false
    end
  else Code128_accepts (format_code self code_value).

(** The exception that the library raises when it does not accept the
    formatted code of [code_value]. *)
Definition glyph_error (self : self_t) (code_value : Z) : exn :=
  if String.eqb (code_type self) "qrcode"
  then QrCodeWidget_error (format_code self code_value)
  else Code128_error (format_code self code_value).

(** The bounds of a QR widget enclose an area. *)
Definition proper_bounds : Prop :=
  forall s b0 b1 b2 b3,
    QrCodeWidget_getBounds s = Some (b0, b1, b2, b3) ->
    is_zero (b2 - b0) = false /\ is_zero (b3 - b1) = false.

(** The calls that draw the label of [code_value]: font, text, glyph. *)
Definition one_label (self : self_t) (code_value : Z) (ops : list canvas_op) : Prop :=
  exists tx ty g,
    is_glyph g = true
    /\ ops = [ setFont "Helvetica-Bold" 9;
               drawCentredString tx ty ("ID: " ++ format_code self code_value)%string;
               g ].

(** The trace of a run of the loop over [codes] in which every label is
    drawn, starting with [label_count] labels already there. *)
Inductive sheet_trace (self : self_t) : Z -> list Z -> list canvas_op -> Prop :=
| sheet_done label_count : sheet_trace self label_count [] []
| sheet_label label_count code codes ops tr :
    one_label self code ops ->
    sheet_trace self (label_count + 1) codes tr ->
    sheet_trace self label_count (code :: codes)
      (ops ++ (if (label_count + 1) mod perSheet self =? 0 then [showPage] else [])
           ++ tr).

(** The grid of every preset is small and has no vertical gap. *)
Definition small_grid (self : self_t) : Prop :=
  1 <= self_labels_per_row self <= 10
  /\ 1 <= self_labels_per_column self <= 10
  /\ self_vertical_gap self = 0.

End Acceptance.

(** ** The page count and the page-break rule as the specification words them *)

(** [ceil(totalLabels / perSheet)], over the rationals. *)
Definition ceil_div (n p : Z) : Z :=
  Qround.Qceiling (QArith_base.Qdiv (QArith_base.inject_Z n) (QArith_base.inject_Z p)).

(** Section 4.4, step 6: a page break follows the label that fills a sheet
    only when more labels remain, so that the breaks of a run of [n] labels
    are the multiples of [p] below [n]. *)
Definition breaks_while_labels_remain (p n : Z) (tr : list canvas_op) : Prop :=
  page_breaks tr = multiples_in p 1 n.

(** ** The error of a failed glyph, as the specification words it (section 4.3)

    "A [GlyphEncodingError] carrying the offending value": the formatted
    string can be read off the exception, that is, it occurs in the message
    of the exception. *)
Fixpoint occurs_in (value text : string) : bool :=
  String.prefix value text
  || match text with
     | EmptyString => false
     | String _ text' => occurs_in value text'
     end.

Definition carries_value (e : exn) (value : string) : bool :=
  match e with
  | ValueError message | LibraryError _ message => occurs_in value message
  | ZeroDivisionError | OverflowError => false
  end.

(** ** The decimal numeral of an integer, as the specification has it (section 4.2)

    A minus sign for a negative integer, then the digits of the absolute
    value, most significant first, without leading zeros. *)

Definition digit_char (d : Z) : ascii := ascii_of_N (48 + Z.to_N d).

Fixpoint prepend_digits (fuel : nat) (n : Z) (acc : string) : string :=
  match fuel with
  | O => acc
  | S fuel' =>
      let acc' := String (digit_char (n mod 10)) acc in
      if n / 10 =? 0 then acc' else prepend_digits fuel' (n / 10) acc'
  end.

Definition decimalString (n : Z) : string :=
  let digits m := prepend_digits (S (Z.to_nat (Z.log2 m))) m "" in
  if n <? 0 then String "-" (digits (- n)) else digits n.


(** The same digits as a [Decimal.uint], least significant first. *)
Definition digit_uint (k : Z) (r : Decimal.uint) : Decimal.uint :=
  match k with
  | 0 => Decimal.D0 r | 1 => Decimal.D1 r | 2 => Decimal.D2 r | 3 => Decimal.D3 r
  | 4 => Decimal.D4 r | 5 => Decimal.D5 r | 6 => Decimal.D6 r | 7 => Decimal.D7 r
  | 8 => Decimal.D8 r | _ => Decimal.D9 r
  end.

Fixpoint little_digits (fuel : nat) (n : Z) : Decimal.uint :=
  match fuel with
  | O => Decimal.Nil
  | S fuel' =>
      digit_uint (n mod 10)
        (if n / 10 =? 0 then Decimal.Nil else little_digits fuel' (n / 10))
  end.


(** ** Rounding of binary64, for the proofs about [float] *)

Definition b2z (b : bool) : Z := if b then 1 else 0.

(** After [k] halvings of [M]: the quotient, the bit just lost and whether
    anything below it was lost. *)
Definition halved (M k : Z) (mrs : shr_record) : Prop :=
  0 <= shr_m mrs
  /\ exists t, 0 <= t < 2 ^ k
               /\ 2 * M = 2 ^ k * (2 * shr_m mrs + b2z (shr_r mrs)) + t
               /\ (shr_s mrs = true <-> t <> 0).

(** [m] is [M / 2^n] rounded to nearest, ties to even. *)
Definition nearest_even (M n m : Z) : Prop :=
  (2 * m - 1) * 2 ^ n <= 2 * M <= (2 * m + 1) * 2 ^ n
  /\ (2 * M = (2 * m + 1) * 2 ^ n \/ 2 * M = (2 * m - 1) * 2 ^ n -> Z.even m = true).

Definition quantum (d E : Z) : Z := Z.max (d + E - 53) (-1074).

(** The float that [binary_round_aux] makes of the rounded mantissa [m] at
    the exponent [q]. *)
Definition finalize (m q : Z) : spec_float :=
  if m =? 0 then S754_zero false
  else if m =? 2 ^ 53 then
    if q + 1 <=? 971 then S754_finite false (Z.to_pos (2 ^ 52)) (q + 1)
    else S754_infinity false
  else
    if q <=? 971 then S754_finite false (Z.to_pos m) q else S754_infinity false.

(** The positive floats and what their products round to. *)
Definition nonnegative (x : spec_float) : Prop :=
  match x with
  | S754_zero false | S754_finite false _ _ | S754_infinity false => True
  | _ => False
  end.

Definition positive_float (x : spec_float) : Prop :=
  match x with
  | S754_finite false _ _ | S754_infinity false => True
  | _ => False
  end.

(** ** [class LabelRequest] of [backend/main.py]: the field validators

    The payload is the JSON body once its values have their Python types;
    an absent optional field takes its default, which is not validated. *)

Record Payload : Type := mkPayload {
  json_start_code : Z;
  json_end_code : Z;
  json_code_type : option string;
  json_label_format : option string;
  json_prefix : option string;
  json_suffix : option string;
  json_page_size : option string
}.

Inductive validation_error : Type :=
| value_error (field msg : string)       (* a validator raised [ValueError(msg)] *)
| literal_error (field input : string).  (* the input is not a value of the [Literal] *)

(** [len(s)] for a [str]: the number of code points, that is of the bytes of
    its UTF-8 encoding that are not continuation bytes. *)
Definition is_continuation_byte (c : ascii) : bool :=
  let n := nat_of_ascii c in ((128 <=? n) && (n <? 192))%nat.
Fixpoint str_len (s : string) : Z :=
  match s with
  | EmptyString => 0
  | String c s' => (if is_continuation_byte c then 0 else 1) + str_len s'
  end.

Definition validate_codes (v : Z) : string + Z :=
  if v <? 0 then inl "Code numbers must be positive"
  else if 999999 <? v then inl "Code numbers must be less than 1,000,000"
  else inr v.

(** [info.data] holds [start_code] only when that field has passed. *)
Definition validate_range (v : Z) (data_start_code : option Z) : string + Z :=
  match data_start_code with
  | Some start_code =>
      if v <? start_code then inl "End code must be greater than or equal to start code"
      else inr v
  | None => inr v
  end.

Definition validate_affix (v : string) : string + string :=
  if 20 <? str_len v then inl "Prefix/suffix must be 20 characters or less"
  else inr v.

Definition run_validator {A} (field : string) (r : string + A) : validation_error + A :=
  match r with
  | inl msg => inl (value_error field msg)
  | inr v => inr v
  end.

(** A field typed [Literal[...]] with a default. *)
Definition literal_field (field : string) (allowed : list string) (default : string)
  (input : option string) : validation_error + string :=
  match input with
  | None => inr default
  | Some v => if existsb (String.eqb v) allowed then inr v else inl (literal_error field v)
  end.

(** A [str] field with a default and the affix validator. *)
Definition affix_field (field : string) (input : option string)
  : validation_error + string :=
  match input with
  | None => inr ""
  | Some v => run_validator field (validate_affix v)
  end.

Definition field_errors {A} (r : validation_error + A) : list validation_error :=
  match r with
  | inl e => [e]
  | inr _ => []
  end.

(** The fields are validated in the order of the class; on [end_code],
    [validate_codes] runs before [validate_range]; every field that fails
    contributes one error. *)
Definition model_validate (payload : Payload) : list validation_error + LabelRequest :=
  let start_code := run_validator "start_code" (validate_codes (json_start_code payload)) in
  let data_start_code := match start_code with inr v => Some v | inl _ => None end in
  let end_code :=
    match validate_codes (json_end_code payload) with
    | inl msg => inl (value_error "end_code" msg)
    | inr v => run_validator "end_code" (validate_range v data_start_code)
    end in
  let code_type :=
    literal_field "code_type" ["barcode"; "qrcode"] "barcode" (json_code_type payload) in
  let label_format :=
    literal_field "label_format" ["avery5160"; "avery5161"; "avery5163"] "avery5160"
      (json_label_format payload) in
  let prefix := affix_field "prefix" (json_prefix payload) in
  let suffix := affix_field "suffix" (json_suffix payload) in
  let page_size := literal_field "page_size" ["letter"; "a4"] "letter" (json_page_size payload) in
  match start_code, end_code, code_type, label_format, prefix, suffix, page_size with
  | inr s, inr e, inr ct, inr lf, inr p, inr sf, inr ps => inr (mkRequest s e ct lf p sf ps)
  | _, _, _, _, _, _, _ =>
      inl (field_errors start_code ++ field_errors end_code ++ field_errors code_type
           ++ field_errors label_format ++ field_errors prefix ++ field_errors suffix
           ++ field_errors page_size)
  end.

(** The value of an optional field. *)
Definition or_default (default : string) (input : option string) : string :=
  match input with
  | Some v => v
  | None => default
  end.

(** The errors of the 422 answer, none when the payload is valid. *)
Definition validation_errors (payload : Payload) : list validation_error :=
  match model_validate payload with
  | inl errors => errors
  | inr _ => []
  end.

(** ** [POST /api/generate]: validation, generation, and the [except] clause

    A payload that fails validation is answered 422 before the handler runs;
    an exception of the handler becomes a 500 whose detail is that
    exception; otherwise the counts are returned.  The file name, made of the
    clock and a random identifier, is a parameter. *)
Inductive http_response : Type :=
| http_200 (total_labels total_pages : Z)
| http_422 (errors : list validation_error)
| http_500 (detail : exn).

Definition generate_endpoint {glyphs : GlyphProvider} (payload : Payload)
  (filepath : string) : http_response * list canvas_op :=
  match model_validate payload with
  | inl errors => (http_422 errors, [])
  | inr request =>
      match generate_labels request filepath with
      | (inr (total_labels, total_pages), tr) => (http_200 total_labels total_pages, tr)
      | (inl e, tr) => (http_500 e, tr)
      end
  end.

(** ** [GET /api/formats] *)

Record FormatInfo : Type := mkFormatInfo {
  info_id : string;
  info_name : string;
  info_labels_per_sheet : Z;
  info_label_size : string;
  info_description : string
}.

(** The inch mark and the multiplication sign (two bytes in UTF-8) of the
    [label_size] strings. *)
Definition inch_mark : string := String (ascii_of_nat 34) "".
Definition times_sign : string := String (ascii_of_nat 195) (String (ascii_of_nat 151) "").
Definition size_text (width height : string) : string :=
  (width ++ inch_mark ++ " " ++ times_sign ++ " " ++ height ++ inch_mark)%string.

Definition get_formats : list FormatInfo :=
  [ mkFormatInfo "avery5160" "Avery 5160" 30 (size_text "2.625" "1")
      "Standard address labels (30 per sheet)";
    mkFormatInfo "avery5161" "Avery 5161" 20 (size_text "4" "1")
      "Easy Peel labels (20 per sheet)";
    mkFormatInfo "avery5163" "Avery 5163" 10 (size_text "4" "2")
      "Shipping labels (10 per sheet)" ].

(** ** The output directory: [GET /api/download] and [DELETE /api/cleanup]

    The directory is the list of its entries, in the order in which
    [os.listdir] gives them; an entry is a regular file or a directory, and
    has a modification time.  (A symbolic link whose target is missing, which
    is listed but does not exist, is not modelled.) *)
Record dir_entry : Type := mkEntry {
  entry_name : string;
  entry_is_file : bool;
  entry_mtime : float
}.

Definition OUTPUT_DIR : string := "/tmp/participant_labels".

Fixpoint lookup_entry (d : list dir_entry) (filename : string) : option dir_entry :=
  match d with
  | [] => None
  | e :: d' => if String.eqb filename (entry_name e) then Some e else lookup_entry d' filename
  end.

(** [os.remove]: [None] stands for [FileNotFoundError]. *)
Definition os_remove (d : list dir_entry) (filename : string) : option (list dir_entry) :=
  match lookup_entry d filename with
  | Some _ => Some (filter (fun e => negb (String.eqb filename (entry_name e))) d)
  | None => None
  end.

(** The body of the [for filename in os.listdir(OUTPUT_DIR)] loop, on the
    names that are left to visit.  [os.path.isfile] is false for a name that
    is not there. *)
Fixpoint cleanup_loop (current_time : float) (filenames : list string)
  (d : list dir_entry) (deleted_count : Z) : option (list dir_entry * Z) :=
  match filenames with
  | [] => Some (d, deleted_count)
  | filename :: filenames' =>
      match lookup_entry d filename with
      | Some e =>
          if entry_is_file e then
            let file_age := (current_time - entry_mtime e)%float in
            if (3600 <? file_age)%float then
              match os_remove d filename with
              | Some d' => cleanup_loop current_time filenames' d' (deleted_count + 1)
              | None => None
              end
            else cleanup_loop current_time filenames' d deleted_count
          else cleanup_loop current_time filenames' d deleted_count
      | None => cleanup_loop current_time filenames' d deleted_count
      end
  end.

(** [cleanup_old_files] at the time [current_time]: the directory it leaves
    and the [deleted_files] count of its answer. *)
Definition cleanup_old_files (current_time : float) (d : list dir_entry)
  : option (list dir_entry * Z) :=
  cleanup_loop current_time (map entry_name d) d 0.

(** What [cleanup_old_files] deletes: a regular file older than an hour. *)
Definition expired (current_time : float) (e : dir_entry) : bool :=
  entry_is_file e && (3600 <? current_time - entry_mtime e)%float.

Inductive download_response : Type :=
| FileResponse (path : string)
| http_404.

(** What the route [/api/download/{filename}] hands to [download_file]: one
    path segment, not empty and without a slash. *)
Definition path_segment (filename : string) : bool :=
  negb (String.eqb filename "")
  && forallb (fun c => negb (Ascii.eqb c "/")) (list_ascii_of_string filename).

(** [os.path.exists(os.path.join(OUTPUT_DIR, filename))] for a path segment:
    [.] is the directory itself and [..] its parent, which exist; any other
    name has to be an entry of the directory. *)
Definition os_path_exists (d : list dir_entry) (filename : string) : bool :=
  String.eqb filename "." || String.eqb filename ".."
  || match lookup_entry d filename with
     | Some _ => true
     | None => false
     end.

Definition download_file (d : list dir_entry) (filename : string) : download_response :=
  if os_path_exists d filename
  then FileResponse (OUTPUT_DIR ++ "/" ++ filename)%string
  else http_404.

(** ** More vocabulary for the proofs *)

(** The texts written on the canvas, in order. *)
Fixpoint texts (tr : list canvas_op) : list string :=
  match tr with
  | [] => []
  | drawCentredString _ _ text :: tr' => text :: texts tr'
  | _ :: tr' => texts tr'
  end.

(** Two labels whose origins are [(x1, y1)] and [(x2, y2)] do not overlap. *)
Definition apart (self : AdvancedLabelGenerator.self_t) (x1 y1 x2 y2 : float) : bool :=
  ((x1 + AdvancedLabelGenerator.self_label_width self <=? x2)
   || (x2 + AdvancedLabelGenerator.self_label_width self <=? x1)
   || (y1 + AdvancedLabelGenerator.self_label_height self <=? y2)
   || (y2 + AdvancedLabelGenerator.self_label_height self <=? y1))%float.

(** The labels numbered [i] and [j] are apart on a page of height
    [page_height]. *)
Definition labels_apart (self : AdvancedLabelGenerator.self_t) (page_height : float)
  (i j : Z) : bool :=
  match AdvancedLabelGenerator.label_position self page_height i,
        AdvancedLabelGenerator.label_position self page_height j with
  | (inr (_, _, x1, y1), _), (inr (_, _, x2, y2), _) => apart self x1 y1 x2 y2
  | _, _ => false
  end.

(** * Proofs *)

(** ** Facts about the monad *)

Lemma bind_ret {A B} (a : A) (k : A -> M B) : bind (ret a) k = k a.
Proof. unfold bind, ret. destruct (k a); reflexivity. Qed.

Lemma bind_returns {A B} (m : M A) (k : A -> M B) a tr :
  m = (inr a, tr) -> bind m k = (outcome (k a), tr ++ trace (k a)).
Proof. intros ->. unfold bind, outcome, trace. destruct (k a); reflexivity. Qed.

Lemma bind_raises {A B} (m : M A) (k : A -> M B) e tr :
  m = (inl e, tr) -> bind m k = (inl e, tr).
Proof. intros ->. reflexivity. Qed.

Lemma bind_call {B} (op : canvas_op) (k : unit -> M B) :
  bind (call op) k = (outcome (k tt), op :: trace (k tt)).
Proof. unfold bind, call, outcome, trace. destruct (k tt); reflexivity. Qed.

(** ** Small integers convert exactly *)

Lemma float_of_int_small (z : Z) :
  0 <= z <= 10 -> float_of_int z = ret (nearest_float z).
Proof.
  intros H.
  assert (z = 0 \/ z = 1 \/ z = 2 \/ z = 3 \/ z = 4 \/ z = 5 \/ z = 6 \/
          z = 7 \/ z = 8 \/ z = 9 \/ z = 10) as C by lia.
  repeat (destruct C as [-> | C]; [vm_compute; reflexivity |]).
  subst z. vm_compute. reflexivity.
Qed.

Lemma pymod_nonzero (a b : Z) : b <> 0 -> pymod a b = ret (a mod b).
Proof. intros H. unfold pymod. now apply Z.eqb_neq in H as ->. Qed.

Lemma floordiv_nonzero (a b : Z) : b <> 0 -> floordiv a b = ret (a / b).
Proof. intros H. unfold floordiv. now apply Z.eqb_neq in H as ->. Qed.

Lemma mod_sheet_mod_row (i c r : Z) :
  0 < c -> 0 < r -> (i mod (c * r)) mod c = i mod c.
Proof.
  intros Hc Hr. rewrite Z.rem_mul_r by lia.
  rewrite Z.mul_comm, Z.mod_add by lia. apply Z.mod_mod. lia.
Qed.

Section Placement.
Import AdvancedLabelGenerator.

(** C3: for a sheet format with at least one column and one row and a
    non-negative index, the position that [generate_pdf] computes is the one
    of the specification's layout calculator: same row, same column (the
    code's [index mod labels_per_row] is [indexOnSheet mod columnsPerSheet]),
    same [x] and same [y]. *)
Theorem label_position_is_placementFor (self : self_t) (page_height : float) (index : Z) :
  1 <= self_labels_per_row self ->
  1 <= self_labels_per_column self ->
  0 <= index ->
  index mod self_labels_per_row self
    = (index mod perSheet self) mod columnsPerSheet self
  /\ label_position self page_height index
     = (p <- placementFor self index page_height ;;
        ret (placement_row p, placement_col p, placement_x p, placement_y p)).
Proof.
  intros Hc Hr Hi.
  assert (Hm : (index mod perSheet self) mod columnsPerSheet self
               = index mod self_labels_per_row self).
  { unfold perSheet, columnsPerSheet, rowsPerSheet. apply mod_sheet_mod_row; lia. }
  split; [now rewrite Hm |].
  unfold label_position, placementFor.
  rewrite Hm.
  unfold perSheet, columnsPerSheet, rowsPerSheet.
  rewrite pymod_nonzero, bind_ret by (apply Z.neq_mul_0; lia).
  rewrite floordiv_nonzero, bind_ret by lia.
  rewrite pymod_nonzero, bind_ret by lia.
  destruct (int_mul_float (index mod self_labels_per_row self) _)
    as [[e | dx] tr1]; [reflexivity |]. cbn.
  destruct (int_mul_float _ (self_label_height self)) as [[e | dy] tr2];
    [reflexivity |]. cbn.
  destruct (float_sub_int _ _) as [[e | y] tr3]; cbn; [reflexivity |].
  now rewrite !app_nil_r.
Qed.

End Placement.

Lemma label_position_is_placementFor_witness :
  31 mod 3 = (31 mod perSheet barcode_generator) mod columnsPerSheet barcode_generator
  /\ AdvancedLabelGenerator.label_position barcode_generator (snd letter) 31
     = (p <- placementFor barcode_generator 31 (snd letter) ;;
        ret (placement_row p, placement_col p, placement_x p, placement_y p)).
Proof.
  apply (label_position_is_placementFor barcode_generator (snd letter) 31);
    simpl; lia.
Defined.

(** ** What [__init__] leaves in [self] *)

Section Init.
Import AdvancedLabelGenerator.

Lemma init_inv sc ec ct lf p s self :
  init sc ec ct lf p s = ret self ->
  exists f, dict_get LABEL_FORMATS lf = Some f
            /\ self = generator_with f sc ec (lower ct) p s.
Proof.
  unfold init. destruct (dict_get LABEL_FORMATS lf) as [f |] eqn:E.
  - intros [= <-]. now exists f.
  - discriminate.
Qed.

Lemma dict_get_presets lf f :
  dict_get LABEL_FORMATS lf = Some f ->
  f = avery5160 \/ f = avery5161 \/ f = avery5163.
Proof.
  simpl. repeat (destruct (String.eqb lf _); [intros [= <-]; auto |]).
  discriminate.
Qed.

Lemma init_small_grid sc ec ct lf p s self :
  init sc ec ct lf p s = ret self -> small_grid self.
Proof.
  intros H. apply init_inv in H as (f & Hf & ->).
  apply dict_get_presets in Hf as [-> | [-> | ->]]; unfold small_grid; simpl; lia.
Qed.

Lemma init_codes sc ec ct lf p s self :
  init sc ec ct lf p s = ret self -> start_code self = sc /\ end_code self = ec.
Proof. intros H. apply init_inv in H as (f & _ & ->). now split. Qed.

Lemma label_position_returns self page_height label_count :
  small_grid self ->
  exists pos, label_position self page_height label_count = ret pos.
Proof.
  intros (Hc & Hr & Hg). unfold label_position.
  rewrite pymod_nonzero, bind_ret by (apply Z.neq_mul_0; lia).
  rewrite floordiv_nonzero, bind_ret by lia.
  rewrite pymod_nonzero, bind_ret by lia.
  set (c := self_labels_per_row self) in *.
  set (r := self_labels_per_column self) in *.
  assert (0 <= label_count mod c < c) by (apply Z.mod_pos_bound; lia).
  assert (0 <= label_count mod (c * r) < c * r) by (apply Z.mod_pos_bound; nia).
  assert (0 <= label_count mod (c * r) / c < r).
  { split; [apply Z.div_pos; lia | apply Z.div_lt_upper_bound; lia]. }
  unfold int_mul_float, float_sub_int.
  rewrite Hg, Z.mul_0_r.
  rewrite !float_of_int_small by lia.
  rewrite !bind_ret. eexists. reflexivity.
Qed.

End Init.

(** ** One label, one turn of the loop *)

Section Loop.
Import AdvancedLabelGenerator.
Context {glyphs : GlyphProvider}.

Lemma truediv_nonzero a b : is_zero b = false -> truediv a b = ret (a / b)%float.
Proof. intros H. unfold truediv. now rewrite H. Qed.

Lemma draw_label_accepted self x y code :
  proper_bounds -> accepts self code = true ->
  exists ops, one_label self code ops /\ draw_label self x y code = (inr tt, ops).
Proof.
  intros Hb Ha. unfold accepts in Ha. unfold draw_label, qr_box, barcode_box.
  rewrite !bind_call.
  destruct (String.eqb (code_type self) "qrcode").
  - unfold generate_qrcode.
    destruct (QrCodeWidget_getBounds (format_code self code))
      as [[[[b0 b1] b2] b3] |] eqn:E; [| discriminate].
    destruct (Hb _ _ _ _ _ E) as [Hw Hh].
    rewrite !truediv_nonzero, !bind_ret by assumption.
    cbn.
    eexists. split; [| reflexivity].
    do 3 eexists. split; [| reflexivity]. reflexivity.
  - rewrite Ha. cbn.
    eexists. split; [| reflexivity].
    do 3 eexists. split; [| reflexivity]. reflexivity.
Qed.

Lemma draw_label_rejected self x y code :
  accepts self code = false ->
  exists tx ty,
    draw_label self x y code
    = (inl (glyph_error self code),
       [ setFont "Helvetica-Bold" 9;
         drawCentredString tx ty ("ID: " ++ format_code self code)%string ]).
Proof.
  intros Ha. unfold accepts in Ha. unfold draw_label, qr_box, barcode_box, glyph_error.
  rewrite !bind_call.
  destruct (String.eqb (code_type self) "qrcode").
  - unfold generate_qrcode.
    destruct (QrCodeWidget_getBounds (format_code self code)); [discriminate |].
    cbn. now do 2 eexists.
  - rewrite Ha. cbn. now do 2 eexists.
Qed.

Lemma loop_body_accepted self page_height label_count code :
  small_grid self -> proper_bounds -> accepts self code = true ->
  exists ops,
    one_label self code ops
    /\ loop_body self page_height label_count code
       = (inr (label_count + 1),
          ops ++ (if (label_count + 1) mod perSheet self =? 0 then [showPage] else [])).
Proof.
  intros Hg Hb Ha. unfold loop_body.
  destruct (label_position_returns self page_height label_count Hg)
    as ([[[row col] x] y] & ->).
  rewrite bind_ret.
  destruct (draw_label_accepted self x y code Hb Ha) as (ops & Hops & ->).
  exists ops. split; [assumption |].
  destruct Hg as (Hc & Hr & _).
  rewrite pymod_nonzero by (apply Z.neq_mul_0; lia).
  unfold perSheet, columnsPerSheet, rowsPerSheet. cbn.
  destruct (_ =? 0); cbn; now rewrite ?app_nil_r.
Qed.

Lemma loop_body_rejected self page_height label_count code :
  small_grid self -> accepts self code = false ->
  exists tx ty,
    loop_body self page_height label_count code
    = (inl (glyph_error self code),
       [ setFont "Helvetica-Bold" 9;
         drawCentredString tx ty ("ID: " ++ format_code self code)%string ]).
Proof.
  intros Hg Ha. unfold loop_body.
  destruct (label_position_returns self page_height label_count Hg)
    as ([[[row col] x] y] & ->).
  rewrite bind_ret.
  destruct (draw_label_rejected self x y code Ha) as (tx & ty & ->).
  now exists tx, ty.
Qed.

Lemma for_code_in_accepted self page_height codes :
  small_grid self -> proper_bounds ->
  (forall c, In c codes -> accepts self c = true) ->
  forall label_count,
  exists tr,
    sheet_trace self label_count codes tr
    /\ for_code_in self page_height codes label_count
       = (inr (label_count + len codes), tr).
Proof.
  intros Hg Hb. induction codes as [| code codes IH]; intros Ha label_count.
  - exists []. split; [constructor |]. cbn. unfold ret, len. cbn. now rewrite Z.add_0_r.
  - cbn [for_code_in].
    destruct (loop_body_accepted self page_height label_count code Hg Hb)
      as (ops & Hops & E); [apply Ha; now left |].
    destruct (IH (fun c H => Ha c (or_intror H)) (label_count + 1)) as (tr & Htr & E').
    rewrite (bind_returns _ _ _ _ E), E'. unfold outcome, trace. cbn [fst snd].
    eexists. split; [apply sheet_label; eassumption |].
    rewrite <- app_assoc. f_equal. f_equal. unfold len. cbn [List.length]. lia.
Qed.

Lemma for_code_in_rejected self page_height before code after :
  small_grid self -> proper_bounds ->
  (forall c, In c before -> accepts self c = true) ->
  accepts self code = false ->
  forall label_count,
  exists tr tx ty,
    sheet_trace self label_count before tr
    /\ for_code_in self page_height (before ++ code :: after) label_count
       = (inl (glyph_error self code),
          tr ++ [ setFont "Helvetica-Bold" 9;
                  drawCentredString tx ty ("ID: " ++ format_code self code)%string ]).
Proof.
  intros Hg Hb Ha Hr. induction before as [| c before IH]; intros label_count.
  - destruct (loop_body_rejected self page_height label_count code Hg Hr)
      as (tx & ty & E).
    exists [], tx, ty. split; [constructor |].
    cbn [app for_code_in]. now rewrite (bind_raises _ _ _ _ E).
  - cbn [app for_code_in].
    destruct (loop_body_accepted self page_height label_count c Hg Hb)
      as (ops & Hops & E); [apply Ha; now left |].
    destruct (IH (fun c H => Ha c (or_intror H)) (label_count + 1))
      as (tr & tx & ty & Htr & E').
    rewrite (bind_returns _ _ _ _ E), E'. unfold outcome, trace. cbn [fst snd].
    do 3 eexists. split; [apply sheet_label; eassumption |].
    now rewrite <- !app_assoc.
Qed.

End Loop.

(** ** [range] *)

Lemma py_range_nil a b : b <= a -> py_range a b = [].
Proof. intros H. unfold py_range. now replace (Z.to_nat (b - a)) with 0%nat by lia. Qed.

Lemma py_range_cons a b : a < b -> py_range a b = a :: py_range (a + 1) b.
Proof.
  intros H. unfold py_range.
  replace (Z.to_nat (b - a)) with (S (Z.to_nat (b - (a + 1)))) by lia.
  cbn [seq map]. f_equal; [lia |].
  rewrite <- seq_shift, map_map. apply map_ext. intros i. lia.
Qed.

Lemma len_py_range a b : len (py_range a b) = Z.max 0 (b - a).
Proof. unfold len, py_range. rewrite length_map, length_seq. lia. Qed.

Lemma In_py_range a b c : In c (py_range a b) <-> a <= c < b.
Proof.
  unfold py_range. rewrite in_map_iff. split.
  - intros (i & <- & Hi). apply in_seq in Hi. lia.
  - intros H. exists (Z.to_nat (c - a)). split; [lia |]. apply in_seq. lia.
Qed.

Lemma py_range_app a k b :
  a <= k <= b -> py_range a b = py_range a k ++ py_range k b.
Proof.
  intros H. remember (Z.to_nat (k - a)) as n eqn:En.
  revert a H En. induction n as [| n IH]; intros a H En.
  - replace k with a by lia. now rewrite (py_range_nil a a) by lia.
  - rewrite (py_range_cons a b), (py_range_cons a k) by lia.
    cbn [app]. f_equal. apply IH; lia.
Qed.

Lemma py_range_split a k b :
  a <= k < b -> py_range a b = py_range a k ++ k :: py_range (k + 1) b.
Proof.
  intros H. rewrite (py_range_app a k b) by lia.
  now rewrite (py_range_cons k b) by lia.
Qed.

(** ** What a trace of drawn labels contains *)

Section Traces.
Import AdvancedLabelGenerator.

Lemma page_breaks_one_label self code ops drawn rest :
  one_label self code ops ->
  page_breaks_from drawn (ops ++ rest) = page_breaks_from (drawn + 1) rest.
Proof.
  intros (tx & ty & g & Hg & ->). cbn.
  destruct g; try discriminate; reflexivity.
Qed.

Lemma page_breaks_sheet_trace self label_count codes tr :
  sheet_trace self label_count codes tr ->
  page_breaks_from label_count tr
  = multiples_in (perSheet self) (label_count + 1) (label_count + len codes + 1).
Proof.
  induction 1 as [lc | lc code codes ops tr Hops Htr IH].
  - unfold multiples_in. rewrite py_range_nil; [reflexivity |]. unfold len. cbn. lia.
  - rewrite (page_breaks_one_label _ _ _ _ _ Hops).
    unfold multiples_in in *. rewrite py_range_cons by (unfold len; cbn [List.length]; lia).
    cbn [filter].
    replace (lc + len (code :: codes) + 1) with (lc + 1 + len codes + 1)
      by (unfold len; cbn [List.length]; lia).
    rewrite <- IH.
    destruct (_ =? 0); reflexivity.
Qed.

Lemma page_breaks_save drawn tr :
  page_breaks_from drawn (tr ++ [save]) = page_breaks_from drawn tr.
Proof.
  revert drawn. induction tr as [| op tr IH]; intros drawn; [reflexivity |].
  destruct op; cbn; now rewrite IH.
Qed.

Lemma labels_on_app tr tr' : labels_on (tr ++ tr') = labels_on tr + labels_on tr'.
Proof. unfold labels_on, len. rewrite filter_app, length_app. lia. Qed.

Lemma labels_on_one_label self code ops : one_label self code ops -> labels_on ops = 1.
Proof. intros (tx & ty & g & Hg & ->). unfold labels_on, len. cbn. now rewrite Hg. Qed.

Lemma labels_on_sheet_trace self label_count codes tr :
  sheet_trace self label_count codes tr -> labels_on tr = len codes.
Proof.
  induction 1 as [lc | lc code codes ops tr Hops Htr IH]; [reflexivity |].
  rewrite !labels_on_app, (labels_on_one_label _ _ _ Hops), IH.
  destruct (_ =? 0); unfold labels_on, len; cbn [filter is_glyph List.length]; lia.
Qed.

(** Every text of the trace is the one of a label of [codes]. *)
Lemma texts_sheet_trace self label_count codes tr :
  sheet_trace self label_count codes tr ->
  forall x y text, In (drawCentredString x y text) tr ->
  exists c, In c codes /\ text = ("ID: " ++ format_code self c)%string.
Proof.
  induction 1 as [lc | lc code codes ops tr Hops Htr IH]; intros x y text Hin.
  - destruct Hin.
  - apply in_app_or in Hin as [Hin | Hin].
    + destruct Hops as (tx & ty & g & Hg & ->).
      exists code. split; [now left |].
      destruct Hin as [Hin | [Hin | [Hin | []]]]; try discriminate.
      * now inversion Hin.
      * subst g. discriminate.
    + apply in_app_or in Hin as [Hin | Hin].
      * destruct (_ =? 0); [destruct Hin as [Hin | []]; discriminate | destruct Hin].
      * destruct (IH _ _ _ Hin) as (c & Hc & ->). exists c. split; [now right | reflexivity].
Qed.

Lemma save_not_in_sheet_trace self label_count codes tr :
  sheet_trace self label_count codes tr -> ~ In save tr.
Proof.
  induction 1 as [lc | lc code codes ops tr Hops Htr IH]; intros Hin.
  - destruct Hin.
  - apply in_app_or in Hin as [Hin | Hin].
    + destruct Hops as (tx & ty & g & Hg & ->).
      destruct Hin as [Hin | [Hin | [Hin | []]]]; try discriminate.
      subst g. discriminate.
    + apply in_app_or in Hin as [Hin | Hin]; [| auto].
      destruct (_ =? 0); [destruct Hin as [Hin | []]; discriminate | destruct Hin].
Qed.

End Traces.

(** ** Pages of the saved document *)

Section Pages.
Import AdvancedLabelGenerator.

Lemma succ_mod (n p : Z) :
  0 < p ->
  ((n + 1) mod p = 0 /\ n mod p + 1 = p)
  \/ ((n + 1) mod p = n mod p + 1 /\ (n + 1) mod p <> 0).
Proof.
  intros Hp.
  pose proof (Z.mod_pos_bound n p Hp) as Hr.
  pose proof (Z.div_mod n p ltac:(lia)) as Hn.
  destruct (Z.eq_dec (n mod p + 1) p) as [E | E].
  - left. split; [| assumption].
    replace (n + 1) with ((n / p + 1) * p) by lia. apply Z.mod_mul. lia.
  - right.
    assert ((n + 1) mod p = n mod p + 1) as ->; [| lia].
    symmetry. apply Z.mod_unique with (q := n / p); lia.
Qed.

Lemma pdf_pages_one_label self code ops pending rest :
  one_label self code ops ->
  pdf_pages_from pending (ops ++ rest) = pdf_pages_from (pending ++ ops) rest.
Proof.
  intros (tx & ty & g & Hg & ->). cbn.
  destruct g; try discriminate; now rewrite <- !app_assoc.
Qed.

Lemma pdf_pages_sheet_trace self label_count codes tr :
  sheet_trace self label_count codes tr ->
  0 < perSheet self ->
  forall pending,
    labels_on pending = label_count mod perSheet self ->
    (pending = [] <-> label_count mod perSheet self = 0) ->
    let filled := label_count mod perSheet self + len codes in
    option_map (map labels_on) (pdf_pages_from pending (tr ++ [save]))
    = Some (repeat (perSheet self) (Z.to_nat (filled / perSheet self))
            ++ (if filled mod perSheet self =? 0 then []
                else [filled mod perSheet self])).
Proof.
  intros Htr Hp. remember (perSheet self) as p eqn:Ep.
  induction Htr as [lc | lc code codes ops tr Hops Htr IH]; intros pending Hl He filled.
  - subst filled. change (len []) with 0. rewrite Z.add_0_r.
    pose proof (Z.mod_pos_bound lc p Hp) as Hr.
    rewrite Z.mod_mod, Z.div_small by lia. cbn [Z.to_nat repeat app].
    destruct pending as [| op pending].
    + destruct He as [He _]. rewrite (He eq_refl). reflexivity.
    + cbn [pdf_pages_from app option_map].
      destruct (Z.eqb_spec (lc mod p) 0) as [E | E].
      * destruct He as [_ He]. discriminate (He E).
      * cbn [map]. now rewrite Hl.
  - assert (Hlen : len (code :: codes) = 1 + len codes)
      by (unfold len; cbn [List.length]; lia).
    assert (0 <= len codes) by (unfold len; lia).
    pose proof (Z.mod_pos_bound lc p Hp) as Hr.
    subst filled. rewrite Hlen, <- Ep.
    rewrite <- app_assoc, (pdf_pages_one_label _ _ _ _ _ Hops), <- app_assoc.
    assert (Hl' : labels_on (pending ++ ops) = lc mod p + 1)
      by (rewrite labels_on_app, (labels_on_one_label _ _ _ Hops); lia).
    destruct (succ_mod lc p Hp) as [[E0 Efull] | [E1 Enz]].
    + rewrite E0. cbn [Z.eqb app pdf_pages_from].
      specialize (IH []). rewrite E0 in IH. specialize (IH eq_refl (conj (fun _ => eq_refl) (fun _ => eq_refl))).
      cbn zeta in IH. rewrite Z.add_0_l in IH.
      destruct (pdf_pages_from [] (tr ++ [save])) as [pages |]; [| discriminate IH].
      cbn [option_map] in *. injection IH as IH. cbn [map]. rewrite IH, Hl', Efull.
      replace (lc mod p + (1 + len codes)) with (len codes + 1 * p) by lia.
      rewrite Z.div_add, Z.mod_add by lia.
      replace (Z.to_nat (len codes / p + 1)) with (S (Z.to_nat (len codes / p))).
      * reflexivity.
      * assert (0 <= len codes / p) by (apply Z.div_pos; lia). lia.
    + apply Z.eqb_neq in Enz as Enz'. rewrite Enz'. cbn [app].
      rewrite (IH (pending ++ ops)).
      * rewrite E1. now replace (lc mod p + 1 + len codes) with (lc mod p + (1 + len codes)) by lia.
      * now rewrite Hl', E1.
      * split; [| intros E; contradiction].
        destruct Hops as (tx & ty & g & _ & ->). intros E.
        apply app_eq_nil in E as [_ E]. discriminate.
Qed.

Lemma pdf_pages_unsaved tr :
  ~ In save tr -> forall pending, pdf_pages_from pending tr = None.
Proof.
  induction tr as [| op tr IH]; intros Hs pending; [reflexivity |].
  assert (Htr : ~ In save tr) by (intros H; apply Hs; now right).
  destruct op; cbn [pdf_pages_from]; try apply (IH Htr).
  - now rewrite (IH Htr).
  - exfalso. apply Hs. now left.
Qed.

End Pages.

(** ** The whole of [generate_pdf] *)

Lemma ceil_div_floor (n p : Z) : 0 < p -> ceil_div n p = (n - 1) / p + 1.
Proof.
  intros Hp. unfold ceil_div, Qround.Qceiling.
  destruct p as [| q | q]; try lia.
  unfold QArith_base.Qdiv, QArith_base.Qinv, QArith_base.inject_Z,
    QArith_base.Qmult, QArith_base.Qopp, Qround.Qfloor.
  cbn [QArith_base.Qnum QArith_base.Qden].
  rewrite Z.mul_1_r, Pos.mul_1_l.
  pose proof (Z.div_mod (- n) (Z.pos q) ltac:(lia)) as H1.
  pose proof (Z.mod_pos_bound (- n) (Z.pos q) ltac:(lia)) as H2.
  assert ((n - 1) / Z.pos q = - (- n / Z.pos q) - 1) as ->; [| lia].
  symmetry. apply Z.div_unique with (r := Z.pos q - 1 - (- n) mod Z.pos q); lia.
Qed.

Section GeneratePdf.
Import AdvancedLabelGenerator.
Context {glyphs : GlyphProvider}.

Lemma generate_pdf_accepted self output_filename page_size :
  small_grid self -> proper_bounds ->
  (forall c, start_code self <= c <= end_code self -> accepts self c = true) ->
  let codes := py_range (start_code self) (end_code self + 1) in
  exists tr,
    sheet_trace self 0 codes tr
    /\ generate_pdf self output_filename page_size
       = (inr (len codes, (len codes - 1) / perSheet self + 1), tr ++ [save]).
Proof.
  intros Hg Hb Ha codes. destruct page_size as [page_width page_height].
  destruct (for_code_in_accepted self page_height codes Hg Hb) with (label_count := 0)
    as (tr & Htr & E).
  { intros c Hc. apply Ha. apply In_py_range in Hc. lia. }
  exists tr. split; [assumption |].
  unfold generate_pdf. fold codes.
  rewrite (bind_returns _ _ _ _ E), bind_call.
  destruct Hg as (Hc & Hr & _).
  rewrite floordiv_nonzero, bind_ret by (apply Z.neq_mul_0; lia).
  reflexivity.
Qed.

Lemma forallb_false {A} (f : A -> bool) (l : list A) :
  forallb f l = false -> exists x, In x l /\ f x = false.
Proof.
  induction l as [| a l IH]; [discriminate |]. cbn.
  destruct (f a) eqn:E; cbn.
  - intros H. destruct (IH H) as (x & Hx & Hf). exists x. auto.
  - intros _. exists a. auto.
Qed.

Lemma first_rejected (f : Z -> bool) (a b : Z) :
  (exists c, a <= c < b /\ f c = false) ->
  exists k, a <= k < b /\ f k = false /\ forall c, a <= c < k -> f c = true.
Proof.
  intros (c & Hc & Hf). revert Hc Hf.
  induction c as [c IH] using (well_founded_induction (Z.lt_wf a)); intros Hc Hf.
  destruct (forallb f (py_range a c)) eqn:E.
  - exists c. repeat split; try lia; [assumption |].
    intros c' Hc'. rewrite forallb_forall in E. apply E, In_py_range. lia.
  - apply forallb_false in E as (c' & Hin & Hf').
    apply In_py_range in Hin. apply (IH c'); [lia | lia | assumption].
Qed.

End GeneratePdf.

(** ** The claims about pagination and failure *)

Section Pagination.
Import AdvancedLabelGenerator.
Context {glyphs : GlyphProvider}.




(** C10: with [end_code < start_code] nothing is raised, no label is drawn,
    no page break is made (the canvas is saved and that is all), and the
    counts returned are 0 labels and 0 pages. *)
Theorem empty_range_generates_nothing sc ec ct lf p s self output_filename page_size :
  init sc ec ct lf p s = ret self ->
  ec < sc ->
  generate_pdf self output_filename page_size = (inr (0, 0), [save]).
Proof.
  intros Hi Hlt.
  pose proof (init_small_grid _ _ _ _ _ _ _ Hi) as (Hc & Hr & _).
  destruct (init_codes _ _ _ _ _ _ _ Hi) as [Es Ee].
  destruct page_size as [page_width page_height].
  unfold generate_pdf. rewrite Es, Ee, py_range_nil by lia.
  cbn [for_code_in]. rewrite bind_ret, bind_call.
  rewrite floordiv_nonzero, bind_ret by (apply Z.neq_mul_0; lia).
  unfold outcome, trace, ret, len. cbn [fst snd List.length Z.of_nat Z.sub Z.opp].
  do 3 f_equal.
  assert ((0 - 1) / (self_labels_per_row self * self_labels_per_column self) = -1); [| lia].
  symmetry. apply Z.div_unique with
    (r := self_labels_per_row self * self_labels_per_column self - 1); nia.
Qed.

End Pagination.

(** ** Runs with the sample glyph libraries *)

Section Runs.
Import AdvancedLabelGenerator.

Lemma ascii_glyphs_proper : @proper_bounds ascii_glyphs.
Proof.
  intros s b0 b1 b2 b3. cbn.
  destruct (is_ascii_string s); [| discriminate].
  intros [= <- <- <- <-]. now vm_compute.
Qed.

Lemma short_glyphs_proper : @proper_bounds short_glyphs.
Proof.
  intros s b0 b1 b2 b3. cbn.
  destruct (String.length s <=? 6)%nat; [| discriminate].
  intros [= <- <- <- <-]. now vm_compute.
Qed.

Lemma accepts_range {glyphs : GlyphProvider} self a b :
  forallb (accepts self) (py_range a (b + 1)) = true ->
  forall c, a <= c <= b -> accepts self c = true.
Proof.
  intros H c Hc. rewrite forallb_forall in H. apply H, In_py_range. lia.
Qed.






Lemma empty_range_generates_nothing_witness :
  generate_pdf (glyphs := ascii_glyphs)
    (generator_with avery5160 100 50 "barcode" "" "") "labels.pdf" letter
  = (inr (0, 0), [save]).
Proof.
  apply (empty_range_generates_nothing (glyphs := ascii_glyphs)
           100 50 "barcode" "avery5160" "" "" _ "labels.pdf" letter eq_refl).
  lia.
Defined.

End Runs.

(** ** The registry, the text of a label and its place on the page *)

Section Registry.
Import AdvancedLabelGenerator.
Context {glyphs : GlyphProvider}.

Lemma dict_get_absent {V} (d : list (string * V)) key :
  ~ In key (map fst d) -> dict_get d key = None.
Proof.
  induction d as [| [k v] d IH]; [reflexivity |]. cbn. intros H.
  destruct (String.eqb_spec key k) as [-> | _]; [exfalso; auto |].
  apply IH. auto.
Qed.

(** C6: a format identifier that is not a key of the registry makes the
    constructor raise an error that names it, and no call reaches the canvas;
    the registry has exactly the three Avery keys, and for each of them the
    generator gets the geometry of that preset. *)
Theorem unknown_format_before_drawing (request : LabelRequest) (filepath : string) :
  (~ In (req_label_format request) (map fst LABEL_FORMATS) ->
   generate_labels request filepath
   = (inl (ValueError ("Unknown label format: " ++ req_label_format request)%string), []))
  /\ map fst LABEL_FORMATS = ["avery5160"; "avery5161"; "avery5163"]
  /\ (forall label_format f sc ec ct p s,
        In (label_format, f) LABEL_FORMATS ->
        init sc ec ct label_format p s = ret (generator_with f sc ec (lower ct) p s)).
Proof.
  split; [| split].
  - intros H. unfold generate_labels, init.
    now rewrite (dict_get_absent _ _ H).
  - reflexivity.
  - intros label_format f sc ec ct p s [H | [H | [H | []]]];
      injection H as <- <-; reflexivity.
Qed.


End Registry.

Lemma unknown_format_before_drawing_witness :
  generate_labels (glyphs := ascii_glyphs)
    (mkRequest 1 10 "barcode" "avery9999" "" "" "letter") "labels.pdf"
  = (inl (ValueError "Unknown label format: avery9999"), []).
Proof.
  apply (proj1 (unknown_format_before_drawing (glyphs := ascii_glyphs)
                  (mkRequest 1 10 "barcode" "avery9999" "" "" "letter") "labels.pdf")).
  cbn. intros [H | [H | [H | []]]]; discriminate H.
Defined.

(** ** Labels and the edges of the page *)

Section OnPage.
Import AdvancedLabelGenerator.

(** Runs the position computation on each index of a sheet. *)
Ltac each_index Hin tac :=
  vm_compute in Hin;
  repeat (destruct Hin as [<- | Hin]; [tac |]);
  destruct Hin.

Ltac on_letter :=
  do 4 eexists; split; [vm_compute; reflexivity | vm_compute; reflexivity].

Ltac on_a4 :=
  do 4 eexists; split; [vm_compute; reflexivity |];
  repeat split; vm_compute; reflexivity.

(** C4, as the code has it: for the three presets and every index of one
    sheet, the label lies within a letter page; on an A4 page it stays above
    the bottom edge, below the top edge and right of the left edge, and it
    stays left of the right edge exactly when it is not in the last column
    of its row. *)
Theorem labels_within_page sc ec ct lf p s self index :
  init sc ec ct lf p s = ret self ->
  0 <= index < perSheet self ->
  (exists row col x y,
     label_position self (snd letter) index = ret (row, col, x, y)
     /\ within_page self letter x y = true)
  /\ (exists row col x y,
        label_position self (snd A4) index = ret (row, col, x, y)
        /\ (0 <=? x)%float = true
        /\ (0 <=? y)%float = true
        /\ (y + self_label_height self <=? snd A4)%float = true
        /\ (x + self_label_width self <=? fst A4)%float
           = (col <? self_labels_per_row self - 1)).
Proof.
  intros Hi Hindex. apply init_inv in Hi as (f & Hf & ->).
  assert (Hin : In index (py_range 0 (perSheet (generator_with f sc ec (lower ct) p s))))
    by (apply In_py_range; lia).
  clear Hindex.
  apply dict_get_presets in Hf as [-> | [-> | ->]].
  - split; [each_index Hin on_letter |]. each_index Hin on_a4.
  - split; [each_index Hin on_letter |]. each_index Hin on_a4.
  - split; [each_index Hin on_letter |]. each_index Hin on_a4.
Qed.

Lemma labels_within_page_witness :
  (exists row col x y,
     label_position barcode_generator (snd letter) 29 = ret (row, col, x, y)
     /\ within_page barcode_generator letter x y = true)
  /\ (exists row col x y,
        label_position barcode_generator (snd A4) 29 = ret (row, col, x, y)
        /\ (0 <=? x)%float = true
        /\ (0 <=? y)%float = true
        /\ (y + self_label_height barcode_generator <=? snd A4)%float = true
        /\ (x + self_label_width barcode_generator <=? fst A4)%float
           = (col <? self_labels_per_row barcode_generator - 1)).
Proof.
  apply (labels_within_page 1 10 "barcode" "avery5160" "TEST-" "" barcode_generator 29 eq_refl).
  vm_compute. split; [discriminate | reflexivity].
Defined.

(** The claim C4 as it is worded fails on A4: the third label of an Avery
    5160 row reaches 598.5 points, past the page width of 595.27. *)
Lemma last_column_leaves_a4 :
  label_position barcode_generator (snd A4) 2
  = ret (0, 2, 409.5%float, (snd A4 - 36 - 72 - 0)%float)
  /\ within_page barcode_generator A4 409.5 (snd A4 - 36 - 72 - 0) = false.
Proof. split; vm_compute; reflexivity. Qed.

End OnPage.

(** ** [str] of an [int] is its decimal numeral *)

Lemma digit_cases k : 0 <= k < 10 ->
  k = 0 \/ k = 1 \/ k = 2 \/ k = 3 \/ k = 4 \/ k = 5 \/ k = 6 \/ k = 7 \/ k = 8 \/ k = 9.
Proof. lia. Qed.

Ltac each_digit H :=
  apply digit_cases in H;
  repeat (destruct H as [-> | H]); [.. | subst].

Lemma string_of_digit_uint k r :
  0 <= k < 10 ->
  NilEmpty.string_of_uint (digit_uint k r)
  = String (digit_char k) (NilEmpty.string_of_uint r).
Proof. intros H. each_digit H; reflexivity. Qed.

Lemma revapp_digit_uint k r acc :
  Decimal.revapp (digit_uint k r) acc = Decimal.revapp r (digit_uint k acc).
Proof.
  unfold digit_uint. destruct k as [| q | q]; try reflexivity.
  do 4 (destruct q as [q | q |]; try reflexivity).
Qed.

Lemma prepend_digits_revapp fuel : forall n acc,
  0 <= n ->
  prepend_digits fuel n (NilEmpty.string_of_uint acc)
  = NilEmpty.string_of_uint (Decimal.revapp (little_digits fuel n) acc).
Proof.
  induction fuel as [| fuel IH]; intros n acc Hn; [reflexivity |].
  cbn [prepend_digits little_digits].
  assert (Hk : 0 <= n mod 10 < 10) by (apply Z.mod_pos_bound; lia).
  rewrite revapp_digit_uint, <- string_of_digit_uint by assumption.
  destruct (n / 10 =? 0); [reflexivity |].
  apply IH. apply Z.div_pos; lia.
Qed.

Lemma of_lu_digit_uint k r :
  0 <= k < 10 -> DecimalPos.Unsigned.of_lu (digit_uint k r) = (Z.to_N k + 10 * DecimalPos.Unsigned.of_lu r)%N.
Proof. intros H. each_digit H; reflexivity. Qed.

Lemma of_lu_little_digits fuel : forall n,
  0 <= n < 2 ^ Z.of_nat fuel -> DecimalPos.Unsigned.of_lu (little_digits fuel n) = Z.to_N n.
Proof.
  induction fuel as [| fuel IH]; intros n Hn.
  - cbn in *. assert (n = 0) as -> by lia. reflexivity.
  - cbn [little_digits].
    assert (Hk : 0 <= n mod 10 < 10) by (apply Z.mod_pos_bound; lia).
    pose proof (Z.div_mod n 10 ltac:(lia)) as Hdm.
    rewrite of_lu_digit_uint by assumption.
    destruct (Z.eqb_spec (n / 10) 0) as [E | E].
    + cbn [DecimalPos.Unsigned.of_lu]. rewrite E in Hdm. lia.
    + rewrite IH.
      * assert (0 <= n / 10) by (apply Z.div_pos; lia). lia.
      * split; [apply Z.div_pos; lia |].
        apply Z.div_lt_upper_bound; [lia |].
        rewrite Nat2Z.inj_succ, Z.pow_succ_r in Hn by lia. lia.
Qed.

Lemma nzhead_little_digits fuel : forall n acc,
  0 < n < 2 ^ Z.of_nat fuel ->
  Decimal.nzhead (Decimal.revapp (little_digits fuel n) acc)
  = Decimal.revapp (little_digits fuel n) acc.
Proof.
  induction fuel as [| fuel IH]; intros n acc Hn.
  - cbn in Hn. lia.
  - cbn [little_digits].
    assert (Hk : 0 <= n mod 10 < 10) by (apply Z.mod_pos_bound; lia).
    pose proof (Z.div_mod n 10 ltac:(lia)) as Hdm.
    rewrite revapp_digit_uint.
    destruct (Z.eqb_spec (n / 10) 0) as [E | E].
    + cbn [Decimal.revapp]. rewrite E in Hdm.
      assert (Hk' : 1 <= n mod 10 < 10) by lia. clear - Hk'.
      assert (n mod 10 = 1 \/ n mod 10 = 2 \/ n mod 10 = 3 \/ n mod 10 = 4 \/ n mod 10 = 5 \/
              n mod 10 = 6 \/ n mod 10 = 7 \/ n mod 10 = 8 \/ n mod 10 = 9) as H by lia.
      repeat (destruct H as [-> | H]); try rewrite H; reflexivity.
    + apply IH.
      assert (0 <= n / 10) by (apply Z.div_pos; lia).
      split; [lia |].
      apply Z.div_lt_upper_bound; [lia |].
      rewrite Nat2Z.inj_succ, Z.pow_succ_r in Hn by lia. lia.
Qed.


Lemma to_uint_little_digits fuel p :
  Z.pos p < 2 ^ Z.of_nat fuel ->
  Pos.to_uint p = Decimal.rev (little_digits fuel (Z.pos p)).
Proof.
  intros H.
  change (Pos.to_uint p) with (N.to_uint (N.pos p)).
  replace (N.pos p) with (N.of_uint (Decimal.rev (little_digits fuel (Z.pos p)))).
  - rewrite DecimalN.Unsigned.to_of. unfold Decimal.rev.
    pose proof (nzhead_little_digits fuel (Z.pos p) Decimal.Nil ltac:(lia)) as Hz.
    unfold Decimal.unorm. rewrite Hz.
    destruct (Decimal.revapp _ _) eqn:E; try reflexivity.
    apply DecimalFacts.revapp_nil_inv in E as [E _].
    pose proof (of_lu_little_digits fuel (Z.pos p) ltac:(lia)) as Hv.
    rewrite E in Hv. discriminate.
  - unfold N.of_uint. rewrite DecimalPos.Unsigned.of_lu_rev.
    rewrite of_lu_little_digits by lia. reflexivity.
Qed.

Lemma digits_of_pos p :
  prepend_digits (S (Z.to_nat (Z.log2 (Z.pos p)))) (Z.pos p) ""
  = NilZero.string_of_uint (Pos.to_uint p).
Proof.
  set (fuel := S (Z.to_nat (Z.log2 (Z.pos p)))).
  assert (Hf : Z.pos p < 2 ^ Z.of_nat fuel).
  { subst fuel. rewrite Nat2Z.inj_succ, Z2Nat.id by apply Z.log2_nonneg.
    apply Z.log2_spec. lia. }
  change "" with (NilEmpty.string_of_uint Decimal.Nil).
  rewrite prepend_digits_revapp by lia.
  rewrite (to_uint_little_digits fuel p Hf). unfold Decimal.rev, NilZero.string_of_uint.
  destruct (Decimal.revapp _ _) eqn:E; try reflexivity.
  apply DecimalFacts.revapp_nil_inv in E as [E _].
  pose proof (of_lu_little_digits fuel (Z.pos p) ltac:(lia)) as Hv.
  rewrite E in Hv. discriminate.
Qed.

Lemma str_of_int_decimalString n : str_of_int n = decimalString n.
Proof.
  unfold str_of_int, decimalString. destruct n as [| p | p].
  - reflexivity.
  - cbn [Z.ltb Z.compare]. rewrite digits_of_pos. reflexivity.
  - cbn [Z.ltb Z.compare Z.opp]. rewrite digits_of_pos. reflexivity.
Qed.

(** * Monotonicity of the binary64 product *)

(** ** Bit length *)

Lemma digits2_pos_bounds (p : positive) :
  2 ^ (Z.pos (digits2_pos p) - 1) <= Z.pos p < 2 ^ Z.pos (digits2_pos p).
Proof.
  assert (Hs : forall d : positive,
             2 ^ Z.pos (Pos.succ d) = 2 * 2 ^ Z.pos d
             /\ 2 ^ (Z.pos (Pos.succ d) - 1) = 2 * 2 ^ (Z.pos d - 1)).
  { intros d. split.
    - rewrite Pos2Z.inj_succ, Z.pow_succ_r; lia.
    - replace (Z.pos (Pos.succ d) - 1) with (Z.succ (Z.pos d - 1)) by lia.
      rewrite Z.pow_succ_r; lia. }
  induction p as [p IH | p IH |]; cbn [digits2_pos].
  - destruct (Hs (digits2_pos p)) as [-> ->]. lia.
  - destruct (Hs (digits2_pos p)) as [-> ->]. lia.
  - cbn. lia.
Qed.

(** ** Iterated halving with round and sticky bits *)

Lemma iter_pos_invariant {A} (f : A -> A) (P : Z -> A -> Prop) :
  (forall k x, 0 <= k -> P k x -> P (k + 1) (f x)) ->
  forall p k x, 0 <= k -> P k x -> P (k + Z.pos p) (iter_pos f p x).
Proof.
  intros Hstep. induction p as [p IH | p IH |]; intros k x Hk Hx; cbn [iter_pos].
  - replace (k + Z.pos p~1) with (k + 1 + Z.pos p + Z.pos p) by lia.
    apply IH; [lia |]. apply IH; [lia |]. now apply Hstep.
  - replace (k + Z.pos p~0) with (k + Z.pos p + Z.pos p) by lia.
    apply IH; [lia |]. now apply IH.
  - now apply Hstep.
Qed.



Lemma halved_start M : 0 <= M -> halved M 0 (shr_record_of_loc M loc_Exact).
Proof.
  intros H. split; [assumption |]. exists 0.
  cbn [shr_record_of_loc shr_m shr_r shr_s b2z].
  rewrite Z.pow_0_r.
  split; [lia |]. split; [lia |].
  split; [discriminate | intros H0; now contradiction H0].
Qed.

Lemma halved_step M k mrs : 0 <= k -> halved M k mrs -> halved M (k + 1) (shr_1 mrs).
Proof.
  intros Hk (Hm & t & Ht & E & Hs). destruct mrs as [m r s]. cbn [shr_m shr_r shr_s] in *.
  assert (Hp : 2 ^ (k + 1) = 2 * 2 ^ k) by (rewrite Z.pow_add_r by lia; lia).
  assert (Hs' : (r || s = true <-> 2 ^ k * b2z r + t <> 0)).
  { destruct r; cbn [orb b2z].
    - split; [intros _; lia | reflexivity].
    - rewrite Hs. split; lia. }
  assert (Ht' : 0 <= 2 ^ k * b2z r + t < 2 ^ (k + 1)) by (destruct r; cbn [b2z]; lia).
  unfold shr_1, halved.
  destruct m as [| [p | p |] | p]; try lia; cbn [shr_m shr_r shr_s];
    (split; [lia |]); exists (2 ^ k * b2z r + t);
    (split; [exact Ht' |]); (split; [| exact Hs']);
    destruct r; cbn [b2z] in *; rewrite Hp; nia.
Qed.

Lemma halved_shr M e n :
  0 <= M -> 0 <= n ->
  halved M n (fst (shr (shr_record_of_loc M loc_Exact) e n))
  /\ snd (shr (shr_record_of_loc M loc_Exact) e n) = e + n.
Proof.
  intros HM Hn. unfold shr. destruct n as [| p | p]; try lia; cbn [fst snd].
  - split; [now apply halved_start | lia].
  - split; [| reflexivity].
    change (Z.pos p) with (0 + Z.pos p).
    apply (iter_pos_invariant shr_1 (halved M)); [apply halved_step | lia | now apply halved_start].
Qed.

(** ** Rounding to nearest, ties to even *)


Lemma round_nearest_even_halved M n mrs :
  0 <= n -> halved M n mrs ->
  nearest_even M n (round_nearest_even (shr_m mrs) (loc_of_shr_record mrs))
  /\ shr_m mrs <= round_nearest_even (shr_m mrs) (loc_of_shr_record mrs).
Proof.
  intros Hn (Hm & t & Ht & E & Hs). destruct mrs as [m r s]. cbn [shr_m shr_r shr_s] in *.
  assert (0 < 2 ^ n) by (apply Z.pow_pos_nonneg; lia).
  unfold nearest_even.
  destruct r, s; cbn [loc_of_shr_record round_nearest_even b2z] in *.
  - assert (t <> 0) by (apply Hs; reflexivity). split; [split |]; nia.
  - assert (t = 0) by (destruct (Z.eq_dec t 0); [assumption | apply Hs in n0; discriminate]).
    subst t. destruct (Z.even m) eqn:Ev.
    + split; [split |]; [nia | intros _; assumption | lia].
    + split; [split |]; [nia | | lia].
      intros _. rewrite Z.even_add, Ev. reflexivity.
  - assert (t <> 0) by (apply Hs; reflexivity). split; [split |]; nia.
  - assert (t = 0) by (destruct (Z.eq_dec t 0); [assumption | apply Hs in n0; discriminate]).
    subst t. split; [split |]; nia.
Qed.

(** Rounding is monotone, whatever the two scales, as long as both round to
    the same unit [2^q]. *)
Lemma nearest_even_monotone M1 n1 m1 M2 n2 m2 :
  0 <= n1 -> 0 <= n2 ->
  nearest_even M1 n1 m1 -> nearest_even M2 n2 m2 ->
  M1 * 2 ^ n2 <= M2 * 2 ^ n1 ->
  m1 <= m2.
Proof.
  intros Hn1 Hn2 [[L1 U1] T1] [[L2 U2] T2] Hle.
  assert (P1 : 0 < 2 ^ n1) by (apply Z.pow_pos_nonneg; lia).
  assert (P2 : 0 < 2 ^ n2) by (apply Z.pow_pos_nonneg; lia).
  destruct (Z_le_gt_dec m1 m2) as [| Hgt]; [assumption | exfalso].
  assert (A : (2 * m1 - 1) * (2 ^ n1 * 2 ^ n2) <= (2 * m2 + 1) * (2 ^ n1 * 2 ^ n2)) by nia.
  assert (m1 = m2 + 1) by nia. subst m1.
  assert (E1 : 2 * M1 = (2 * (m2 + 1) - 1) * 2 ^ n1) by nia.
  assert (E2 : 2 * M2 = (2 * m2 + 1) * 2 ^ n2) by nia.
  pose proof (T1 (or_intror E1)) as Ev1. pose proof (T2 (or_introl E2)) as Ev2.
  rewrite Z.even_add, Ev2 in Ev1. discriminate.
Qed.

(** ** One rounding of binary64 *)


Lemma fexp_quantum d E : fexp prec emax (d + E) = quantum d E.
Proof. reflexivity. Qed.


Lemma pow2_lt_inv (a b : Z) : 0 <= b -> 2 ^ a < 2 ^ b -> a < b.
Proof. intros Hb H. apply (Z.pow_lt_mono_r_iff 2); [lia | assumption | assumption]. Qed.

Lemma pow2_split (a b : Z) : 0 <= a -> 0 <= b -> 2 ^ (a + b) = 2 ^ a * 2 ^ b.
Proof. intros. now apply Z.pow_add_r. Qed.

Lemma second_shr_fexp (m q : Z) :
  0 <= m <= 2 ^ 53 -> -1074 <= q ->
  (let '(mrs, e) := shr_fexp prec emax m q loc_Exact in
   match shr_m mrs with
   | Z0 => S754_zero false
   | Zpos p => if e <=? emax - prec then S754_finite false p e else S754_infinity false
   | Zneg _ => S754_nan
   end) = finalize m q.
Proof.
  intros Hm Hq. unfold shr_fexp, finalize.
  destruct (Z.eqb_spec m 0) as [-> | Hnz].
  - cbn [Zdigits2]. rewrite (fexp_quantum 0 q). unfold quantum, shr.
    destruct (Z.max (0 + q - 53) (-1074) - q) eqn:E; try reflexivity. lia.
  - destruct (Z.eqb_spec m (2 ^ 53)) as [-> | Hne].
    + change (Zdigits2 (2 ^ 53)) with 54. rewrite (fexp_quantum 54 q). unfold quantum.
      replace (Z.max (54 + q - 53) (-1074) - q) with 1 by lia.
      cbn [shr iter_pos]. reflexivity.
    + destruct m as [| p | p]; try lia. cbn [Zdigits2].
      rewrite (fexp_quantum (Z.pos (digits2_pos p)) q). unfold quantum.
      pose proof (digits2_pos_bounds p) as Hd.
      assert (Z.pos (digits2_pos p) - 1 < 53) by (apply pow2_lt_inv; lia).
      unfold shr.
      destruct (Z.max (Z.pos (digits2_pos p) + q - 53) (-1074) - q) eqn:E; try lia;
        cbn [shr_record_of_loc shr_m]; reflexivity.
Qed.

Lemma round_aux_finalize (M : positive) (E : Z) :
  let d := Z.pos (digits2_pos M) in
  let q := quantum d E in
  E <= q ->
  exists m,
    nearest_even (Z.pos M) (q - E) m
    /\ 0 <= m <= 2 ^ 53
    /\ (-1074 < q -> 2 ^ 52 <= m)
    /\ binary_round_aux prec emax false (Z.pos M) E loc_Exact = finalize m q.
Proof.
  intros d q Hq.
  pose proof (digits2_pos_bounds M) as Hd. fold d in Hd.
  unfold binary_round_aux. unfold shr_fexp at 1.
  cbn [Zdigits2]. fold d. rewrite (fexp_quantum d E). fold q.
  destruct (halved_shr (Z.pos M) E (q - E)) as [Hh He]; [lia | lia |].
  destruct (shr (shr_record_of_loc (Z.pos M) loc_Exact) E (q - E)) as [mrs e'].
  cbn [fst snd] in Hh, He. subst e'. replace (E + (q - E)) with q by lia.
  destruct (round_nearest_even_halved (Z.pos M) (q - E) mrs ltac:(lia) Hh) as [Hne Hge].
  set (m := round_nearest_even (shr_m mrs) (loc_of_shr_record mrs)) in *.
  assert (Hm0 : 0 <= m) by (destruct Hh as [H0 _]; lia).
  assert (Hn : 0 < 2 ^ (q - E)) by (apply Z.pow_pos_nonneg; lia).
  destruct Hne as [[L U] T].
  assert (Hup : m <= 2 ^ 53).
  { destruct (Z_le_gt_dec d 53) as [Hd53 | Hd53].
    - assert (2 ^ d <= 2 ^ 53) by (apply Z.pow_le_mono_r; lia). nia.
    - assert (Hs : 2 ^ d = 2 ^ 53 * 2 ^ (d - 53))
        by (rewrite <- pow2_split by lia; f_equal; lia).
      assert (2 ^ (d - 53) <= 2 ^ (q - E)) by (apply Z.pow_le_mono_r; unfold q, quantum; lia).
      assert (0 < 2 ^ (d - 53)) by (apply Z.pow_pos_nonneg; lia).
      destruct (Z_le_gt_dec m (2 ^ 53)) as [| Hgt]; [assumption | exfalso].
      assert ((2 * m - 1) * 2 ^ (d - 53) <= (2 * m - 1) * 2 ^ (q - E)) by nia.
      nia. }
  assert (Hlow : -1074 < q -> 2 ^ 52 <= m).
  { intros Hnorm.
    assert (Hqe : q - E = d - 53) by (unfold q, quantum in *; lia).
    rewrite Hqe in *.
    assert (Hs : 2 ^ (d - 1) = 2 ^ 52 * 2 ^ (d - 53))
      by (rewrite <- pow2_split by lia; f_equal; lia).
    nia. }
  exists m. split; [split; [split |]; assumption |].
  split; [lia |]. split; [assumption |].
  apply second_shr_fexp; [lia | unfold q, quantum; lia].
Qed.

(** ** Order of the rounded results *)

Lemma SFleb_finite (m1 m2 : positive) (e1 e2 : Z) :
  e1 < e2 \/ (e1 = e2 /\ (m1 <= m2)%positive) ->
  SFleb (S754_finite false m1 e1) (S754_finite false m2 e2) = true.
Proof.
  intros H. unfold SFleb, SFcompare.
  destruct (Z.compare_spec e1 e2) as [E | E | E]; try reflexivity; try lia.
  destruct H as [H | [_ H]]; [lia |].
  change (Pos.compare_cont Eq m1 m2) with (m1 ?= m2)%positive.
  unfold Pos.le in H. destruct (m1 ?= m2)%positive; try reflexivity. now contradiction H.
Qed.

Lemma finalize_le_same (q m1 m2 : Z) :
  0 <= m1 <= m2 -> m2 <= 2 ^ 53 ->
  SFleb (finalize m1 q) (finalize m2 q) = true.
Proof.
  intros H1 H2. unfold finalize.
  destruct (Z.eqb_spec m1 0), (Z.eqb_spec m2 0), (Z.eqb_spec m1 (2 ^ 53)),
    (Z.eqb_spec m2 (2 ^ 53)), (Z.leb_spec (q + 1) 971), (Z.leb_spec q 971);
    try lia; try reflexivity;
    apply SFleb_finite; try (left; lia); right; (split; [reflexivity |]); lia.
Qed.

Lemma finalize_le_next (q1 q2 m1 m2 : Z) :
  q1 < q2 -> 0 <= m1 <= 2 ^ 53 -> 2 ^ 52 <= m2 <= 2 ^ 53 ->
  SFleb (finalize m1 q1) (finalize m2 q2) = true.
Proof.
  intros Hq H1 H2. unfold finalize.
  destruct (Z.eqb_spec m1 0), (Z.eqb_spec m2 0), (Z.eqb_spec m1 (2 ^ 53)),
    (Z.eqb_spec m2 (2 ^ 53)), (Z.leb_spec (q1 + 1) 971), (Z.leb_spec q1 971),
    (Z.leb_spec (q2 + 1) 971), (Z.leb_spec q2 971);
    try lia; try reflexivity;
    apply SFleb_finite;
    (destruct (Z.eq_dec (q1 + 1) q2); [right; split; [assumption | lia] | left; lia])
    || (left; lia).
Qed.

(** ** Multiplication by a positive constant is monotone *)

Lemma canonical_inv (m : positive) (e : Z) :
  valid_binary (S754_finite false m e) = true ->
  quantum (Z.pos (digits2_pos m)) e = e /\ e <= 971.
Proof.
  cbn [SpecFloat.valid_binary]. unfold bounded, canonical_mantissa.
  rewrite (fexp_quantum (Z.pos (digits2_pos m)) e).
  intros H. apply andb_prop in H as [H1 H2].
  apply Z.eqb_eq in H1. apply Z.leb_le in H2. change (emax - prec) with 971 in H2. lia.
Qed.

Lemma SFleb_finite_inv (m1 m2 : positive) (e1 e2 : Z) :
  SFleb (S754_finite false m1 e1) (S754_finite false m2 e2) = true ->
  e1 < e2 \/ (e1 = e2 /\ Z.pos m1 <= Z.pos m2).
Proof.
  unfold SFleb, SFcompare.
  destruct (Z.compare_spec e1 e2) as [E | E | E]; try discriminate; [| left; lia].
  change (Pos.compare_cont Eq m1 m2) with (m1 ?= m2)%positive.
  destruct (Pos.compare_spec m1 m2); try discriminate; intros _; right; lia.
Qed.

Lemma digits_product (a c : positive) :
  Z.pos (digits2_pos a) + Z.pos (digits2_pos c) - 1 <= Z.pos (digits2_pos (a * c)).
Proof.
  pose proof (digits2_pos_bounds a) as Ha.
  pose proof (digits2_pos_bounds c) as Hc.
  pose proof (digits2_pos_bounds (a * c)) as Hp.
  rewrite Pos2Z.inj_mul in Hp.
  assert (2 ^ (Z.pos (digits2_pos a) - 1 + (Z.pos (digits2_pos c) - 1))
          < 2 ^ Z.pos (digits2_pos (a * c))).
  { rewrite pow2_split by lia. nia. }
  apply pow2_lt_inv in H; lia.
Qed.

Lemma product_needs_no_left_shift (a c : positive) (ea ec : Z) :
  valid_binary (S754_finite false a ea) = true ->
  valid_binary (S754_finite false c ec) = true ->
  ea + ec <= quantum (Z.pos (digits2_pos (a * c))) (ea + ec).
Proof.
  intros Ha Hc. apply canonical_inv in Ha as [Ha _]. apply canonical_inv in Hc as [Hc _].
  pose proof (digits_product a c). unfold quantum in *. lia.
Qed.

Lemma SFmul_monotone (a b c : positive) (ea eb ec : Z) :
  valid_binary (S754_finite false a ea) = true ->
  valid_binary (S754_finite false b eb) = true ->
  valid_binary (S754_finite false c ec) = true ->
  SFleb (S754_finite false a ea) (S754_finite false b eb) = true ->
  SFleb (SF64mul (S754_finite false a ea) (S754_finite false c ec))
        (SF64mul (S754_finite false b eb) (S754_finite false c ec)) = true.
Proof.
  intros Va Vb Vc Hab. unfold SF64mul, SFmul. cbn [xorb].
  pose proof (product_needs_no_left_shift a c ea ec Va Vc) as Sa.
  pose proof (product_needs_no_left_shift b c eb ec Vb Vc) as Sb.
  destruct (round_aux_finalize (a * c) (ea + ec) Sa) as (m1 & N1 & B1 & L1 & ->).
  destruct (round_aux_finalize (b * c) (eb + ec) Sb) as (m2 & N2 & B2 & L2 & ->).
  set (d1 := Z.pos (digits2_pos (a * c))) in *.
  set (d2 := Z.pos (digits2_pos (b * c))) in *.
  set (q1 := quantum d1 (ea + ec)) in *.
  set (q2 := quantum d2 (eb + ec)) in *.
  (* the values are ordered *)
  apply SFleb_finite_inv in Hab.
  apply canonical_inv in Va as [Ca _]. apply canonical_inv in Vb as [Cb _].
  pose proof (digits2_pos_bounds a) as Da. pose proof (digits2_pos_bounds b) as Db.
  assert (Hval : ea <= eb /\ Z.pos a <= Z.pos b * 2 ^ (eb - ea)).
  { destruct Hab as [Hlt | [-> Hle]].
    - split; [lia |].
      assert (Z.pos (digits2_pos b) = 53) by (unfold quantum in *; lia).
      assert (Z.pos (digits2_pos a) <= 53) by (unfold quantum in *; lia).
      assert (2 ^ Z.pos (digits2_pos a) <= 2 ^ 53) by (apply Z.pow_le_mono_r; lia).
      assert (2 ^ 1 <= 2 ^ (eb - ea)) by (apply Z.pow_le_mono_r; lia).
      replace (Z.pos (digits2_pos b) - 1) with 52 in Db by lia.
      change (2 ^ 1) with 2 in *. change (2 ^ 53) with (2 * 2 ^ 52) in *. nia.
    - split; [lia |]. rewrite Z.sub_diag, Z.pow_0_r. lia. }
  destruct Hval as [He Hv].
  assert (Hprod : Z.pos (a * c) <= Z.pos (b * c) * 2 ^ (eb - ea))
    by (rewrite !Pos2Z.inj_mul; nia).
  pose proof (digits2_pos_bounds (a * c)) as D1. fold d1 in D1.
  pose proof (digits2_pos_bounds (b * c)) as D2. fold d2 in D2.
  assert (Hmag : d1 + ea <= d2 + eb).
  { assert (2 ^ (d1 - 1) < 2 ^ (d2 + (eb - ea))) by (rewrite pow2_split by lia; nia).
    apply pow2_lt_inv in H; lia. }
  assert (Hq : q1 <= q2) by (unfold q1, q2, quantum; lia).
  destruct (Z.eq_dec q1 q2) as [Eq | Nq].
  - rewrite <- Eq. apply finalize_le_same; [split; [lia |] | lia].
    apply (nearest_even_monotone (Z.pos (a * c)) (q1 - (ea + ec)) m1
             (Z.pos (b * c)) (q2 - (eb + ec)) m2); [lia | lia | exact N1 | exact N2 |].
    replace (q1 - (ea + ec)) with (q2 - (eb + ec) + (eb - ea)) by lia.
    rewrite pow2_split by lia.
    assert (0 < 2 ^ (q2 - (eb + ec))) by (apply Z.pow_pos_nonneg; lia).
    nia.
  - apply finalize_le_next; [lia | lia |].
    split; [apply L2; unfold q1, quantum in *; lia | lia].
Qed.

(** ** From [spec_float] to [float] *)



Lemma finalize_nonnegative m q : nonnegative (finalize m q).
Proof.
  unfold finalize.
  destruct (m =? 0), (m =? 2 ^ 53), (q + 1 <=? 971), (q <=? 971); exact I.
Qed.

Lemma SFleb_not_ltb x y :
  nonnegative x -> nonnegative y -> SFleb x y = true -> SFltb y x = false.
Proof.
  unfold SFleb, SFltb.
  destruct x as [[|] | [|] | | [|] m1 e1], y as [[|] | [|] | | [|] m2 e2];
    cbn; try contradiction; try reflexivity; try discriminate; intros _ _.
  rewrite (Z.compare_antisym e1 e2).
  destruct (e1 ?= e2); cbn; try reflexivity; try discriminate.
  change (Pos.compare_cont Eq m2 m1) with (m2 ?= m1)%positive.
  change (Pos.compare_cont Eq m1 m2) with (m1 ?= m2)%positive.
  rewrite (Pos.compare_antisym m1 m2).
  destruct (m1 ?= m2)%positive; cbn; try reflexivity; discriminate.
Qed.

Lemma SFleb_antisym x y :
  nonnegative x -> nonnegative y ->
  SFleb x y = true -> SFltb x y = false -> x = y.
Proof.
  unfold SFleb, SFltb.
  destruct x as [[|] | [|] | | [|] m1 e1], y as [[|] | [|] | | [|] m2 e2];
    cbn; try contradiction; try reflexivity; try discriminate; intros _ _.
  destruct (Z.compare_spec e1 e2); try discriminate.
  change (Pos.compare_cont Eq m1 m2) with (m1 ?= m2)%positive.
  destruct (Pos.compare_spec m1 m2); try discriminate. now subst.
Qed.

Lemma SFltb_total x y :
  positive_float x -> positive_float y -> SFltb x y = false -> SFleb y x = true.
Proof.
  unfold SFleb, SFltb.
  destruct x as [[|] | [|] | | [|] m1 e1], y as [[|] | [|] | | [|] m2 e2];
    cbn; try contradiction; try reflexivity; try discriminate; intros _ _.
  rewrite (Z.compare_antisym e1 e2).
  destruct (e1 ?= e2); cbn; try reflexivity; try discriminate.
  change (Pos.compare_cont Eq m2 m1) with (m2 ?= m1)%positive.
  change (Pos.compare_cont Eq m1 m2) with (m1 ?= m2)%positive.
  rewrite (Pos.compare_antisym m1 m2).
  destruct (m1 ?= m2)%positive; cbn; try reflexivity; discriminate.
Qed.

Lemma SFltb_leb x y : SFltb x y = true -> SFleb x y = true.
Proof. unfold SFltb, SFleb. destruct (SFcompare x y) as [[| |] |]; congruence. Qed.

Lemma positive_of_ltb (w : float) : (0 <? w)%float = true -> positive_float (Prim2SF w).
Proof.
  rewrite ltb_spec. change (Prim2SF 0) with (S754_zero false).
  unfold SFltb. destruct (Prim2SF w) as [[|] | [|] | | [|] m e]; cbn; try discriminate; auto.
Qed.

Section Scaling.
Variables (c : positive) (ec : Z).
Hypothesis valid_c : valid_binary (S754_finite false c ec) = true.

Lemma SFmul_nonnegative x :
  valid_binary x = true -> positive_float x ->
  nonnegative (SF64mul x (S754_finite false c ec)).
Proof.
  destruct x as [[|] | [|] | | [|] m e]; cbn [positive_float]; try contradiction;
    intros Vx _; [exact I |].
  unfold SF64mul, SFmul. cbn [xorb].
  destruct (round_aux_finalize (m * c) (e + ec)) as (r & _ & _ & _ & ->).
  - now apply product_needs_no_left_shift.
  - apply finalize_nonnegative.
Qed.

Lemma SFmul_monotone_positive x y :
  valid_binary x = true -> valid_binary y = true ->
  positive_float x -> positive_float y ->
  SFleb x y = true ->
  SFleb (SF64mul x (S754_finite false c ec)) (SF64mul y (S754_finite false c ec)) = true.
Proof.
  intros Vx Vy Px Py Hle.
  pose proof (SFmul_nonnegative x Vx Px) as Nx.
  destruct x as [[|] | [|] | | [|] m1 e1]; cbn [positive_float] in Px; try contradiction;
  destruct y as [[|] | [|] | | [|] m2 e2]; cbn [positive_float] in Py; try contradiction.
  - reflexivity.
  - discriminate Hle.
  - change (SF64mul (S754_infinity false) (S754_finite false c ec)) with (S754_infinity false).
    revert Nx. destruct (SF64mul _ _) as [[|] | [|] | | [|] m e]; cbn; try contradiction; reflexivity.
  - now apply SFmul_monotone.
Qed.

End Scaling.

(** min(w * 0.7, h * 0.7) = min(w, h) * 0.7 for all positive binary64 [w], [h]. *)
Lemma pymin_scaled (w h : float) :
  (0 <? w)%float = true -> (0 <? h)%float = true ->
  pymin (w * 0.7) (h * 0.7) = (pymin w h * 0.7)%float.
Proof.
  intros Hw Hh. apply positive_of_ltb in Hw, Hh.
  pose proof (Prim2SF_valid w) as Vw. pose proof (Prim2SF_valid h) as Vh.
  assert (Vc : valid_binary (S754_finite false 6305039478318694 (-53)) = true) by reflexivity.
  assert (Ec : Prim2SF 0.7 = S754_finite false 6305039478318694 (-53)) by reflexivity.
  unfold pymin. rewrite !ltb_spec, !mul_spec, Ec.
  pose proof (SFmul_nonnegative _ _ Vc _ Vw Hw) as Nw.
  pose proof (SFmul_nonnegative _ _ Vc _ Vh Hh) as Nh.
  destruct (SFltb (Prim2SF h) (Prim2SF w)) eqn:Lt.
  - destruct (SFltb (SF64mul (Prim2SF h) _) _) eqn:Lt'; [reflexivity |].
    apply Prim2SF_inj. rewrite !mul_spec, Ec. symmetry.
    apply SFleb_antisym; try assumption.
    apply SFmul_monotone_positive; try assumption. now apply SFltb_leb.
  - assert (Hle : SFleb (Prim2SF w) (Prim2SF h) = true) by now apply SFltb_total.
    rewrite SFleb_not_ltb; [reflexivity | assumption | assumption |].
    now apply SFmul_monotone_positive.
Qed.

(** * The formatter and the glyph boxes *)

Section Glyphs.
Import AdvancedLabelGenerator.

(** *** The limit on the conversion of an [int] *)

Lemma prepend_digits_grows fuel : forall n acc,
  (String.length acc <= String.length (prepend_digits fuel n acc))%nat.
Proof.
  induction fuel as [| fuel IH]; intros n acc; cbn [prepend_digits]; [lia |].
  destruct (n / 10 =? 0); [cbn; lia |].
  specialize (IH (n / 10) (String (digit_char (n mod 10)) acc)). cbn in IH. lia.
Qed.

Lemma prepend_digits_length fuel : forall n acc d,
  0 <= n < 2 ^ Z.of_nat fuel -> 1 <= d ->
  Z.of_nat (String.length (prepend_digits fuel n acc)) <= Z.of_nat (String.length acc) + d
  <-> n < 10 ^ d.
Proof.
  induction fuel as [| fuel IH]; intros n acc d Hn Hd.
  - cbn [prepend_digits]. change (2 ^ Z.of_nat 0) with 1 in Hn.
    assert (0 < 10 ^ d) by (apply Z.pow_pos_nonneg; lia). split; lia.
  - cbn [prepend_digits].
    assert (H10 : 10 ^ d = 10 * 10 ^ (d - 1)).
    { replace d with (Z.succ (d - 1)) at 1 by lia. apply Z.pow_succ_r. lia. }
    assert (Hpos : 0 < 10 ^ (d - 1)) by (apply Z.pow_pos_nonneg; lia).
    pose proof (Z.div_mod n 10 ltac:(lia)) as Hdm.
    pose proof (Z.mod_pos_bound n 10 ltac:(lia)) as Hr.
    destruct (Z.eqb_spec (n / 10) 0) as [E | E].
    + cbn [String.length]. split; nia.
    + assert (Hq : 0 <= n / 10 < 2 ^ Z.of_nat fuel).
      { rewrite Nat2Z.inj_succ, Z.pow_succ_r in Hn by lia. split; [apply Z.div_pos; lia |].
        apply Z.div_lt_upper_bound; lia. }
      destruct (Z.eq_dec d 1) as [-> | Hd1].
      * assert (1 <= n / 10) by lia.
        destruct fuel as [| fuel'].
        { change (2 ^ Z.of_nat 0) with 1 in Hq. lia. }
        cbn [prepend_digits].
        split; [| change (10 ^ 1) with 10; lia].
        intros Hlen. exfalso.
        destruct (n / 10 / 10 =? 0).
        -- cbn [String.length] in Hlen. lia.
        -- pose proof (prepend_digits_grows fuel' (n / 10 / 10)
                         (String (digit_char (n / 10 mod 10))
                            (String (digit_char (n mod 10)) acc))) as Hg.
           cbn [String.length] in Hg. lia.
      * specialize (IH (n / 10) (String (digit_char (n mod 10)) acc) (d - 1) Hq ltac:(lia)).
        cbn [String.length] in IH. rewrite Nat2Z.inj_succ in IH.
        split; intros H.
        -- assert (n / 10 < 10 ^ (d - 1)) by (apply IH; lia). lia.
        -- assert (n / 10 < 10 ^ (d - 1)) by (apply Z.div_lt_upper_bound; lia).
           apply IH in H0. lia.
Qed.

Lemma str_digits_within (n d : Z) : 1 <= d -> str_digits n <= d <-> Z.abs n < 10 ^ d.
Proof.
  intros Hd. unfold str_digits. rewrite str_of_int_decimalString. unfold decimalString.
  pose proof (Z.abs_nonneg n) as Hn. destruct (Z.ltb_spec (Z.abs n) 0) as [| _]; [lia |].
  rewrite <- (prepend_digits_length (S (Z.to_nat (Z.log2 (Z.abs n)))) (Z.abs n) "" d);
    [cbn [String.length]; lia | | assumption].
  split; [assumption |].
  rewrite Nat2Z.inj_succ, Z2Nat.id by apply Z.log2_nonneg.
  destruct (Z.eq_dec (Z.abs n) 0) as [-> | Hz]; [reflexivity |].
  apply Z.log2_spec. lia.
Qed.

Lemma py_str_int_returns (n : Z) :
  Z.abs n < 10 ^ int_max_str_digits -> py_str_int n = inr (str_of_int n).
Proof.
  intros H. unfold py_str_int.
  destruct (Z.ltb_spec int_max_str_digits (str_digits n)) as [Hl | _]; [| reflexivity].
  apply str_digits_within in H; [lia | unfold int_max_str_digits; lia].
Qed.

Lemma py_str_int_raises (n : Z) :
  10 ^ int_max_str_digits <= Z.abs n -> py_str_int n = inl int_max_str_digits_error.
Proof.
  intros H. unfold py_str_int.
  destruct (Z.ltb_spec int_max_str_digits (str_digits n)) as [_ | Hl]; [reflexivity |].
  apply str_digits_within in Hl; [lia | unfold int_max_str_digits; lia].
Qed.

Lemma format_code_call_returns (self : self_t) (code_value : Z) (s : string) :
  format_code_call self code_value = inr s -> s = format_code self code_value.
Proof.
  unfold format_code_call, py_str_int, format_code.
  destruct (_ <? _); [discriminate | now intros [= <-]].
Qed.

(** C5: for an integer of at most 4300 decimal digits, the limit of the
    interpreter on the conversion, the formatter returns the prefix, then
    the decimal numeral of the integer, then the suffix: a function of the
    integer and the two affixes alone. *)
Theorem format_code_is_concatenation (self : self_t) (rawValue : Z) :
  Z.abs rawValue < 10 ^ int_max_str_digits ->
  format_code_call self rawValue
  = inr (prefix self ++ decimalString rawValue ++ suffix self)%string.
Proof.
  intros H. unfold format_code_call. rewrite (py_str_int_returns _ H).
  cbn [String.concat]. now rewrite str_of_int_decimalString.
Qed.

Lemma format_code_is_concatenation_witness :
  format_code_call (generator_with avery5160 1 10 "barcode" "TEST-" "") 42 = inr "TEST-42"
  /\ format_code_call (generator_with avery5160 1 10 "barcode" "" "-2024") 7 = inr "7-2024".
Proof.
  split.
  - apply (format_code_is_concatenation
             (generator_with avery5160 1 10 "barcode" "TEST-" "") 42).
    vm_compute. reflexivity.
  - apply (format_code_is_concatenation
             (generator_with avery5160 1 10 "barcode" "" "-2024") 7).
    vm_compute. reflexivity.
Defined.

(** The claim C5 as it is worded fails on the least integer of 4301 digits:
    the conversion raises and the formatter returns nothing. *)
Lemma format_code_refuses_long_integer :
  format_code_call barcode_generator (10 ^ 4300)
  = inl (ValueError
           "Exceeds the limit (4300 digits) for integer string conversion; use sys.set_int_max_str_digits() to increase the limit").
Proof.
  unfold format_code_call. rewrite py_str_int_raises; [reflexivity |].
  rewrite Z.abs_eq by (apply Z.pow_nonneg; lia). apply Z.le_refl.
Qed.

Lemma label_position_on_sheet self page_height label_count :
  small_grid self ->
  label_position self page_height label_count
  = label_position self page_height (label_count mod perSheet self).
Proof.
  intros (Hc & Hr & _). unfold label_position, perSheet, columnsPerSheet, rowsPerSheet.
  set (c := self_labels_per_row self) in *. set (r := self_labels_per_column self) in *.
  assert (c * r <> 0) by (apply Z.neq_mul_0; lia).
  rewrite !pymod_nonzero, !bind_ret by lia.
  rewrite Z.mod_mod by assumption.
  now rewrite mod_sheet_mod_row by lia.
Qed.

Ltac each_box Hin :=
  vm_compute in Hin;
  repeat (destruct Hin as [<- | Hin];
          [do 4 eexists; split; [vm_compute; reflexivity |];
           vm_compute; repeat split |]);
  destruct Hin.

Lemma glyph_boxes_on_sheet sc ec ct lf p s self page_size label_count :
  init sc ec ct lf p s = ret self ->
  page_size = letter \/ page_size = A4 ->
  exists row col x y,
    label_position self (snd page_size) label_count = ret (row, col, x, y)
    /\ (let '(qr_x, qr_y, qr_size) := qr_box self x y in
        qr_size = (pymin (self_label_width self) (self_label_height self) * 0.7)%float
        /\ inside_label self x y qr_x qr_y qr_size qr_size = true)
    /\ (let '(barcode_x, barcode_y, barcode_width, barcode_height) :=
          barcode_box self x y in
        barcode_width = (self_label_width self - 0.2 * inch)%float
        /\ inside_label self x y barcode_x barcode_y 0 (barcode_height * 0.8) = true).
Proof.
  intros Hi Hpage.
  rewrite (label_position_on_sheet _ _ _ (init_small_grid _ _ _ _ _ _ _ Hi)).
  assert (Hin : In (label_count mod perSheet self) (py_range 0 (perSheet self))).
  { apply In_py_range. apply Z.mod_pos_bound.
    destruct (init_small_grid _ _ _ _ _ _ _ Hi) as (Hc & Hr & _).
    unfold perSheet, columnsPerSheet, rowsPerSheet. nia. }
  remember (label_count mod perSheet self) as index eqn:E. clear E.
  apply init_inv in Hi as (f & Hf & ->).
  apply dict_get_presets in Hf as [-> | [-> | ->]]; destruct Hpage as [-> | ->];
    each_box Hin.
Qed.

Section Drawn.
Context {glyphs : GlyphProvider}.

Lemma draw_label_glyph self x y code :
  proper_bounds -> accepts self code = true ->
  exists tx ty g,
    draw_label self x y code
    = (inr tt, [ setFont "Helvetica-Bold" 9;
                 drawCentredString tx ty ("ID: " ++ format_code self code)%string;
                 g ])
    /\ if String.eqb (code_type self) "qrcode"
       then let '(qr_x, qr_y, qr_size) := qr_box self x y in
            exists sx sy,
              g = renderPDF_draw {| drawing_width := qr_size;
                                    drawing_height := qr_size;
                                    transform := (sx, 0, 0, sy, 0, 0);
                                    qr_value := format_code self code |} qr_x qr_y
       else let '(barcode_x, barcode_y, _, barcode_height) := barcode_box self x y in
            g = drawOn {| barcode_value := format_code self code;
                          barHeight := (barcode_height * 0.8)%float;
                          barWidth := 0.9%float |} barcode_x barcode_y.
Proof.
  intros Hb Ha. unfold accepts in Ha. unfold draw_label, qr_box, barcode_box.
  rewrite !bind_call.
  destruct (String.eqb (code_type self) "qrcode").
  - unfold generate_qrcode.
    destruct (QrCodeWidget_getBounds _) as [[[[b0 b1] b2] b3] |] eqn:E; [| discriminate].
    destruct (Hb _ _ _ _ _ E) as [Hw Hh].
    rewrite !truediv_nonzero, !bind_ret by assumption. cbn.
    do 3 eexists. split; [reflexivity |]. now do 2 eexists.
  - rewrite Ha. cbn. do 3 eexists. split; reflexivity.
Qed.


End Drawn.



End Glyphs.

(** * The scenarios of [backend/test_api.py] *)

Example test_generate_barcode :
  outcome (generate_labels (glyphs := ascii_glyphs) barcode_request "labels.pdf")
  = inr (10, 1).
Proof. vm_compute. reflexivity. Qed.

Example test_generate_qrcode :
  outcome (generate_labels (glyphs := ascii_glyphs) qrcode_request "labels.pdf")
  = inr (21, 3).
Proof. vm_compute. reflexivity. Qed.

Example barcode_request_generator :
  AdvancedLabelGenerator.init 1 10 "barcode" "avery5160" "TEST-" "" = ret barcode_generator.
Proof. reflexivity. Qed.

Example qrcode_request_generator :
  AdvancedLabelGenerator.init 100 120 "qrcode" "avery5163" "QR-" "-2024"
  = ret qrcode_generator.
Proof. reflexivity. Qed.

(** * The request validators of [backend/main.py] *)

Section Validation.

Lemma validate_codes_accepts v r :
  validate_codes v = inr r <-> 0 <= v <= 999999 /\ r = v.
Proof.
  unfold validate_codes.
  destruct (Z.ltb_spec v 0); [| destruct (Z.ltb_spec 999999 v)];
    (split; [intros H'; try discriminate; injection H' as <-; lia | intros [H' ->]; try lia; reflexivity]).
Qed.

Lemma start_code_accepts v r :
  run_validator "start_code" (validate_codes v) = inr r <-> 0 <= v <= 999999 /\ r = v.
Proof.
  rewrite <- validate_codes_accepts. unfold run_validator.
  destruct (validate_codes v); split; congruence.
Qed.

Lemma literal_field_accepts field allowed default input r :
  literal_field field allowed default input = inr r
  <-> (input = None /\ r = default) \/ (input = Some r /\ In r allowed).
Proof.
  unfold literal_field. destruct input as [v |].
  - destruct (existsb (String.eqb v) allowed) eqn:E.
    + apply existsb_exists in E as (a & Ha & E). apply String.eqb_eq in E. subst a.
      split; [intros [= <-]; right; auto | intros [[H _] | [[= ->] _]]; [discriminate | reflexivity]].
    + split; [discriminate |]. intros [[H _] | [[= ->] Hin]]; [discriminate |].
      assert (existsb (String.eqb r) allowed = true)
        by (apply existsb_exists; exists r; split; [assumption | apply String.eqb_refl]).
      congruence.
  - split; [intros [= <-]; left; auto | intros [[_ ->] | [H _]]; [reflexivity | discriminate]].
Qed.

Lemma affix_field_accepts field input r :
  affix_field field input = inr r
  <-> (input = None /\ r = "") \/ (input = Some r /\ str_len r <= 20).
Proof.
  unfold affix_field, run_validator, validate_affix. destruct input as [v |].
  - destruct (Z.ltb_spec 20 (str_len v)).
    + split; [discriminate | intros [[H' _] | [[= ->] H']]; [discriminate | lia]].
    + split; [intros [= <-]; right; auto | intros [[H' _] | [[= ->] _]]; [discriminate | reflexivity]].
  - split; [intros [= <-]; left; auto | intros [[_ ->] | [H _]]; [reflexivity | discriminate]].
Qed.

Lemma model_validate_fields payload request :
  model_validate payload = inr request
  <-> exists s e ct lf p sf ps,
        run_validator "start_code" (validate_codes (json_start_code payload)) = inr s
        /\ validate_codes (json_end_code payload) = inr e
        /\ validate_range e (Some s) = inr e
        /\ literal_field "code_type" ["barcode"; "qrcode"] "barcode"
             (json_code_type payload) = inr ct
        /\ literal_field "label_format" ["avery5160"; "avery5161"; "avery5163"] "avery5160"
             (json_label_format payload) = inr lf
        /\ affix_field "prefix" (json_prefix payload) = inr p
        /\ affix_field "suffix" (json_suffix payload) = inr sf
        /\ literal_field "page_size" ["letter"; "a4"] "letter"
             (json_page_size payload) = inr ps
        /\ request = mkRequest s e ct lf p sf ps.
Proof.
  unfold model_validate.
  destruct (run_validator "start_code" _) as [e1 | s].
  - split; [| intros (s & e & ct & lf & p & sf & ps & H & _); discriminate].
    destruct (validate_codes (json_end_code payload));
      destruct (literal_field "code_type" _ _ _), (literal_field "label_format" _ _ _),
        (affix_field "prefix" _), (affix_field "suffix" _), (literal_field "page_size" _ _ _);
      discriminate.
  - destruct (validate_codes (json_end_code payload)) as [m | e].
    + split; [| intros (s' & e & ct & lf & p & sf & ps & _ & H & _); discriminate].
      destruct (literal_field "code_type" _ _ _), (literal_field "label_format" _ _ _),
        (affix_field "prefix" _), (affix_field "suffix" _), (literal_field "page_size" _ _ _);
        discriminate.
    + unfold validate_range, run_validator.
      destruct (e <? s) eqn:Elt;
      destruct (literal_field "code_type" _ _ _) as [? | ct],
        (literal_field "label_format" _ _ _) as [? | lf],
        (affix_field "prefix" _) as [? | p], (affix_field "suffix" _) as [? | sf],
        (literal_field "page_size" _ _ _) as [? | ps];
        (split;
         [ intros H; try discriminate H; injection H as <-;
           exists s, e, ct, lf, p, sf, ps; repeat split; try reflexivity;
           now rewrite Elt
         | intros (s' & e' & ct' & lf' & p' & sf' & ps' & H1 & H2 & H3 & H4 & H5 & H6 & H7 & H8 & ->);
           try discriminate;
           injection H1 as <-; injection H2 as <-;
           try (rewrite Elt in H3; discriminate H3);
           congruence ]).
Qed.

(** X1: a payload passes validation exactly when both codes lie between 0
    and 999999 with [start_code <= end_code], the glyph kind, the format and
    the page size (when given) are values of their [Literal], and prefix and
    suffix (when given) have at most 20 characters; the request then holds
    the given values and the defaults of the absent fields. *)
Theorem model_validate_accepts (payload : Payload) (request : LabelRequest) :
  model_validate payload = inr request
  <-> 0 <= json_start_code payload
      /\ json_start_code payload <= json_end_code payload
      /\ json_end_code payload <= 999999
      /\ (forall v, json_code_type payload = Some v -> In v ["barcode"; "qrcode"])
      /\ (forall v, json_label_format payload = Some v
                    -> In v ["avery5160"; "avery5161"; "avery5163"])
      /\ (forall v, json_prefix payload = Some v -> str_len v <= 20)
      /\ (forall v, json_suffix payload = Some v -> str_len v <= 20)
      /\ (forall v, json_page_size payload = Some v -> In v ["letter"; "a4"])
      /\ request = mkRequest (json_start_code payload) (json_end_code payload)
                     (or_default "barcode" (json_code_type payload))
                     (or_default "avery5160" (json_label_format payload))
                     (or_default "" (json_prefix payload))
                     (or_default "" (json_suffix payload))
                     (or_default "letter" (json_page_size payload)).
Proof.
  rewrite model_validate_fields. split.
  - intros (s & e & ct & lf & p & sf & ps & H1 & H2 & H3 & H4 & H5 & H6 & H7 & H8 & ->).
    apply start_code_accepts in H1 as [B1 ->]. apply validate_codes_accepts in H2 as [B2 ->].
    unfold validate_range in H3.
    destruct (Z.ltb_spec (json_end_code payload) (json_start_code payload)); [discriminate |].
    apply literal_field_accepts in H4, H5, H8. apply affix_field_accepts in H6, H7.
    repeat split; try lia.
    + intros v E. destruct H4 as [[H4 _] | [H4 Hin]]; congruence.
    + intros v E. destruct H5 as [[H5 _] | [H5 Hin]]; congruence.
    + intros v E. destruct H6 as [[H6 _] | [H6 Hl]]; [congruence |].
      rewrite E in H6. now injection H6 as ->.
    + intros v E. destruct H7 as [[H7 _] | [H7 Hl]]; [congruence |].
      rewrite E in H7. now injection H7 as ->.
    + intros v E. destruct H8 as [[H8 _] | [H8 Hin]]; congruence.
    + destruct H4 as [[-> ->] | [-> _]], H5 as [[-> ->] | [-> _]],
        H6 as [[-> ->] | [-> _]], H7 as [[-> ->] | [-> _]], H8 as [[-> ->] | [-> _]];
        reflexivity.
  - intros (B1 & B2 & B3 & L1 & L2 & A1 & A2 & L3 & ->).
    do 7 eexists. repeat split.
    + apply start_code_accepts. split; [lia | reflexivity].
    + apply validate_codes_accepts. split; [lia | reflexivity].
    + unfold validate_range.
      destruct (Z.ltb_spec (json_end_code payload) (json_start_code payload)); [lia | reflexivity].
    + apply literal_field_accepts. destruct (json_code_type payload); cbn [or_default]; auto.
    + apply literal_field_accepts. destruct (json_label_format payload); cbn [or_default]; auto.
    + apply affix_field_accepts. destruct (json_prefix payload); cbn [or_default]; auto.
    + apply affix_field_accepts. destruct (json_suffix payload); cbn [or_default]; auto.
    + apply literal_field_accepts. destruct (json_page_size payload); cbn [or_default]; auto.
Qed.

Lemma literal_field_error field allowed default input x :
  In x (field_errors (literal_field field allowed default input)) ->
  exists v, x = literal_error field v.
Proof.
  unfold literal_field. destruct input as [v |]; [| intros []].
  destruct (existsb _ _); [intros [] | intros [<- | []]]. now exists v.
Qed.

Lemma affix_field_error field input x :
  In x (field_errors (affix_field field input)) -> exists m, x = value_error field m.
Proof.
  unfold affix_field, run_validator. destruct input as [v |]; [| intros []].
  destruct (validate_affix v) as [m |]; [intros [<- | []] | intros []]. now exists m.
Qed.

Lemma validation_errors_fields (payload : Payload) :
  validation_errors payload
  = let start_code :=
      run_validator "start_code" (validate_codes (json_start_code payload)) in
    let end_code :=
      match validate_codes (json_end_code payload) with
      | inl msg => inl (value_error "end_code" msg)
      | inr v =>
          run_validator "end_code"
            (validate_range v (match start_code with inr v => Some v | inl _ => None end))
      end in
    field_errors start_code ++ field_errors end_code
    ++ field_errors (literal_field "code_type" ["barcode"; "qrcode"] "barcode"
                       (json_code_type payload))
    ++ field_errors (literal_field "label_format" ["avery5160"; "avery5161"; "avery5163"]
                       "avery5160" (json_label_format payload))
    ++ field_errors (affix_field "prefix" (json_prefix payload))
    ++ field_errors (affix_field "suffix" (json_suffix payload))
    ++ field_errors (literal_field "page_size" ["letter"; "a4"] "letter"
                       (json_page_size payload)).
Proof.
  unfold validation_errors, model_validate. cbv zeta.
  destruct (run_validator "start_code" _);
    destruct (match validate_codes (json_end_code payload) with inl _ => _ | inr _ => _ end);
    destruct (literal_field "code_type" _ _ _), (literal_field "label_format" _ _ _),
      (affix_field "prefix" _), (affix_field "suffix" _), (literal_field "page_size" _ _ _);
    reflexivity.
Qed.

(** X2: the answer reports that the end code is below the start code
    exactly when each of the two codes is in range by itself; with a start
    code out of range the comparison is not made. *)
Theorem range_error_reported (payload : Payload) :
  In (value_error "end_code" "End code must be greater than or equal to start code")
     (validation_errors payload)
  <-> 0 <= json_start_code payload <= 999999
      /\ 0 <= json_end_code payload <= 999999
      /\ json_end_code payload < json_start_code payload.
Proof.
  rewrite validation_errors_fields. cbv zeta.
  set (range_error := value_error "end_code" _).
  set (rest := field_errors (literal_field "code_type" _ _ _) ++ _).
  assert (Hrest : ~ In range_error rest).
  { subst rest range_error. intros Hin.
    repeat (apply in_app_or in Hin as [Hin | Hin]).
    - apply literal_field_error in Hin as (v & Hv). discriminate.
    - apply literal_field_error in Hin as (v & Hv). discriminate.
    - apply affix_field_error in Hin as (m & Hm). discriminate.
    - apply affix_field_error in Hin as (m & Hm). discriminate.
    - apply literal_field_error in Hin as (v & Hv). discriminate. }
  unfold validate_codes, validate_range, run_validator. subst range_error.
  destruct (Z.ltb_spec (json_start_code payload) 0);
    [| destruct (Z.ltb_spec 999999 (json_start_code payload))];
    (destruct (Z.ltb_spec (json_end_code payload) 0);
     [| destruct (Z.ltb_spec 999999 (json_end_code payload))]);
    try (destruct (Z.ltb_spec (json_end_code payload) (json_start_code payload)));
    cbn [field_errors app In];
    (split;
     [ intros Hin;
       repeat (destruct Hin as [Hin | Hin]; [try discriminate Hin |]);
       try contradiction; lia
     | intros Hc; try lia; auto ]).
Qed.

End Validation.

(** * The generate endpoint, from payload to answer *)

Section Endpoint.
Import AdvancedLabelGenerator.
Context {glyphs : GlyphProvider}.

Lemma init_of_listed_format sc ec ct lf p s :
  In lf ["avery5160"; "avery5161"; "avery5163"] ->
  exists self, init sc ec ct lf p s = ret self.
Proof.
  intros [<- | [<- | [<- | []]]]; eexists; reflexivity.
Qed.

Lemma generate_pdf_rejected self output_filename page_size k :
  small_grid self -> proper_bounds ->
  start_code self <= k <= end_code self ->
  accepts self k = false ->
  (forall c, start_code self <= c < k -> accepts self c = true) ->
  outcome (generate_pdf self output_filename page_size)
  = inl (glyph_error self k).
Proof.
  intros Hg Hb Hk Hf Hbefore. destruct page_size as [page_width page_height].
  destruct (for_code_in_rejected self page_height (py_range (start_code self) k) k
              (py_range (k + 1) (end_code self + 1)) Hg Hb) with (label_count := 0)
    as (tr & tx & ty & _ & E); [| assumption |].
  { intros c Hc. apply Hbefore, In_py_range, Hc. }
  rewrite <- py_range_split in E by lia.
  unfold generate_pdf. now rewrite (bind_raises _ _ _ _ E).
Qed.

Lemma find_first {A : Type} (f : A -> bool) (l : list A) (x : A) :
  find f l = Some x ->
  exists before after,
    l = before ++ x :: after /\ f x = true /\ forall y, In y before -> f y = false.
Proof.
  induction l as [| a l IH]; cbn [find]; [discriminate |].
  destruct (f a) eqn:E.
  - intros [= <-]. exists [], l. now repeat split.
  - intros H. destruct (IH H) as (before & after & -> & Hx & Hb).
    exists (a :: before), after. repeat split; [assumption |].
    intros y [<- | Hy]; auto.
Qed.

(** X3: a payload that passes validation always resolves its format, and
    asks for between 1 and 1000000 labels.  The answer is decided by the
    first identifier of the range, in ascending order, that the glyph library
    rejects: when there is none it is 200 with the number of labels and
    [ceil(labels / perSheet)] pages, at least one page and at most one per
    label; when there is one it is 500, and its detail is the exception that
    the library raised for that identifier.  No other answer is possible. *)
Theorem validated_request_outcomes (payload : Payload) (request : LabelRequest)
  (filepath : string) :
  proper_bounds ->
  model_validate payload = inr request ->
  exists self,
    init (req_start_code request) (req_end_code request) (req_code_type request)
         (req_label_format request) (req_prefix request) (req_suffix request) = ret self
    /\ 1 <= req_end_code request - req_start_code request + 1 <= 1000000
    /\ 1 <= ceil_div (req_end_code request - req_start_code request + 1) (perSheet self)
         <= req_end_code request - req_start_code request + 1
    /\ fst (generate_endpoint payload filepath)
       = match find (fun c => negb (accepts self c))
                 (py_range (req_start_code request) (req_end_code request + 1)) with
         | Some k => http_500 (glyph_error self k)
         | None => http_200 (req_end_code request - req_start_code request + 1)
                     (ceil_div (req_end_code request - req_start_code request + 1)
                        (perSheet self))
         end.
Proof.
  intros Hb Hv. pose proof Hv as Hfields.
  apply model_validate_fields in Hfields
    as (s & e & ct & lf & p & sf & ps & H1 & H2 & H3 & H4 & H5 & _ & _ & _ & ->).
  apply start_code_accepts in H1 as [B1 ->]. apply validate_codes_accepts in H2 as [B2 ->].
  unfold validate_range in H3.
  destruct (Z.ltb_spec (json_end_code payload) (json_start_code payload)) as [| B3];
    [discriminate |]. clear H3.
  set (sc := json_start_code payload) in *. set (ec := json_end_code payload) in *.
  cbn [req_start_code req_end_code req_code_type req_label_format req_prefix req_suffix].
  assert (Hlf : In lf ["avery5160"; "avery5161"; "avery5163"]).
  { apply literal_field_accepts in H5 as [[_ ->] | [_ Hin]]; [now left | assumption]. }
  destruct (init_of_listed_format sc ec ct lf p sf Hlf) as (self & Hi).
  exists self. split; [assumption |]. split; [lia |].
  pose proof (init_small_grid _ _ _ _ _ _ _ Hi) as Hg.
  destruct (init_codes _ _ _ _ _ _ _ Hi) as [Es Ee].
  assert (Hp : 0 < perSheet self).
  { destruct Hg as (Hc & Hr & _). unfold perSheet, columnsPerSheet, rowsPerSheet. nia. }
  assert (Hrun : forall r, outcome (generate_pdf self filepath
                              (if String.eqb ps "a4" then A4 else letter)) = r ->
                 fst (generate_endpoint payload filepath)
                 = match r with
                   | inr (n, pages) => http_200 n pages
                   | inl err => http_500 err
                   end).
  { intros r <-. unfold generate_endpoint. rewrite Hv. unfold generate_labels.
    cbn [req_start_code req_end_code req_code_type req_label_format req_prefix
         req_suffix req_page_size].
    rewrite Hi, bind_ret. unfold outcome.
    destruct (generate_pdf self filepath _) as [[err | [n pages]] tr]; reflexivity. }
  rewrite ceil_div_floor by assumption.
  split.
  { assert (0 <= (ec - sc + 1 - 1) / perSheet self) by (apply Z.div_pos; lia).
    assert ((ec - sc + 1 - 1) / perSheet self <= ec - sc + 1 - 1)
      by (apply Z.div_le_upper_bound; nia).
    lia. }
  destruct (find _ (py_range sc (ec + 1))) as [k |] eqn:Ef.
  - apply find_first in Ef as (before & after & Hl & Hk & Hbefore).
    apply negb_true_iff in Hk.
    rewrite (Hrun (inl (glyph_error self k))); [reflexivity |].
    set (page_size := if String.eqb ps "a4" then A4 else letter).
    destruct page_size as [page_width page_height].
    destruct (for_code_in_rejected self page_height before k after Hg Hb)
      with (label_count := 0) as (tr & tx & ty & _ & E); [| assumption |].
    { intros c Hc. apply negb_false_iff. now apply Hbefore. }
    unfold generate_pdf. rewrite Es, Ee, Hl. now rewrite (bind_raises _ _ _ _ E).
  - destruct (generate_pdf_accepted self filepath
                (if String.eqb ps "a4" then A4 else letter) Hg Hb)
      as (tr & _ & E).
    { rewrite Es, Ee. intros c Hc.
      apply negb_false_iff. apply (find_none _ _ Ef). apply In_py_range. lia. }
    rewrite (Hrun _ (f_equal fst E)). cbn [fst].
    rewrite len_py_range, Es, Ee.
    replace (Z.max 0 (ec + 1 - sc)) with (ec - sc + 1) by lia.
    reflexivity.
Qed.

End Endpoint.

Lemma validated_request_outcomes_witness :
  fst (generate_endpoint (glyphs := short_glyphs)
         (mkPayload 1 10 (Some "barcode") (Some "avery5160") (Some "TEST-")
            (Some "") (Some "letter")) "labels.pdf")
  = http_500 (ValueError "code length overflow")
  /\ fst (generate_endpoint (glyphs := ascii_glyphs)
            (mkPayload 1 10 (Some "barcode") (Some "avery5160") (Some "TEST-")
               (Some "") (Some "letter")) "labels.pdf")
     = http_200 10 1.
Proof.
  split.
  - destruct (validated_request_outcomes (glyphs := short_glyphs)
                (mkPayload 1 10 (Some "barcode") (Some "avery5160") (Some "TEST-")
                   (Some "") (Some "letter"))
                barcode_request "labels.pdf" short_glyphs_proper eq_refl)
      as (self & Hi & _ & _ & ->).
    injection Hi as <-. vm_compute. reflexivity.
  - destruct (validated_request_outcomes (glyphs := ascii_glyphs)
                (mkPayload 1 10 (Some "barcode") (Some "avery5160") (Some "TEST-")
                   (Some "") (Some "letter"))
                barcode_request "labels.pdf" ascii_glyphs_proper eq_refl)
      as (self & Hi & _ & _ & ->).
    injection Hi as <-. vm_compute. reflexivity.
Defined.

(** * Every run that draws all its labels *)

Section CompleteRuns.
Import AdvancedLabelGenerator.
Context {glyphs : GlyphProvider}.

Lemma texts_app tr tr' : texts (tr ++ tr') = texts tr ++ texts tr'.
Proof.
  induction tr as [| op tr IH]; [reflexivity |].
  destruct op; cbn [app texts]; now rewrite ?IH.
Qed.

Lemma texts_sheet_trace_in_order self label_count codes tr :
  sheet_trace self label_count codes tr ->
  texts tr = map (fun c => ("ID: " ++ format_code self c)%string) codes.
Proof.
  induction 1 as [lc | lc code codes ops tr Hops Htr IH]; [reflexivity |].
  rewrite !texts_app, IH. destruct Hops as (tx & ty & g & Hg & ->).
  destruct g; try discriminate Hg; destruct (_ =? 0); reflexivity.
Qed.

Lemma pages_of_labels (n p : Z) :
  0 <= n -> 0 < p ->
  Z.of_nat (Z.to_nat (n / p)) + (if n mod p =? 0 then 0 else 1) = (n - 1) / p + 1.
Proof.
  intros Hn Hp.
  pose proof (Z.div_mod n p ltac:(lia)) as Hdm.
  pose proof (Z.mod_pos_bound n p Hp) as Hr.
  assert (0 <= n / p) by (apply Z.div_pos; lia).
  rewrite Z2Nat.id by assumption.
  destruct (Z.eqb_spec (n mod p) 0) as [E | E].
  - assert ((n - 1) / p = n / p - 1); [| lia].
    symmetry. apply Z.div_unique with (r := p - 1); nia.
  - assert ((n - 1) / p = n / p); [| lia].
    symmetry. apply Z.div_unique with (r := n mod p - 1); nia.
Qed.




End CompleteRuns.




(** * The grid of a sheet *)

Section Grid.
Import AdvancedLabelGenerator.

(** X7: the label numbered [label_count] goes to the row and the column
    that address its rank on the sheet: the column is below
    [labels_per_row], the row below [labels_per_column], and
    [row * labels_per_row + col] is [label_count mod perSheet]; so two labels
    of one sheet never share a cell. *)
Theorem label_cell_addresses_rank sc ec ct lf p s self page_height label_count :
  init sc ec ct lf p s = ret self ->
  exists row col x y,
    label_position self page_height label_count = ret (row, col, x, y)
    /\ 0 <= row < self_labels_per_column self
    /\ 0 <= col < self_labels_per_row self
    /\ row * self_labels_per_row self + col = label_count mod perSheet self.
Proof.
  intros Hi. pose proof (init_small_grid _ _ _ _ _ _ _ Hi) as (Hc & Hr & Hg).
  unfold label_position, perSheet, columnsPerSheet, rowsPerSheet.
  set (c := self_labels_per_row self) in *.
  set (r := self_labels_per_column self) in *.
  rewrite pymod_nonzero, bind_ret by (apply Z.neq_mul_0; lia).
  rewrite floordiv_nonzero, bind_ret by lia.
  rewrite pymod_nonzero, bind_ret by lia.
  assert (H1 : 0 <= label_count mod c < c) by (apply Z.mod_pos_bound; lia).
  assert (H2 : 0 <= label_count mod (c * r) < c * r) by (apply Z.mod_pos_bound; nia).
  assert (H3 : 0 <= label_count mod (c * r) / c < r).
  { split; [apply Z.div_pos; lia | apply Z.div_lt_upper_bound; lia]. }
  unfold int_mul_float, float_sub_int.
  rewrite Hg, Z.mul_0_r.
  rewrite !float_of_int_small by lia.
  rewrite !bind_ret. do 4 eexists. split; [reflexivity |].
  split; [assumption |]. split; [assumption |].
  rewrite <- (mod_sheet_mod_row label_count c r) by lia.
  pose proof (Z.div_mod (label_count mod (c * r)) c ltac:(lia)). lia.
Qed.

(** X8: the place of a label depends only on its rank on the sheet: adding
    any number of full sheets to [label_count] gives the same row, column and
    origin - or the same error, for a grid without cells. *)
Theorem label_position_repeats (self : self_t) (page_height : float) (label_count k : Z) :
  label_position self page_height (label_count + k * perSheet self)
  = label_position self page_height label_count.
Proof.
  unfold label_position, perSheet, columnsPerSheet, rowsPerSheet.
  set (c := self_labels_per_row self). set (r := self_labels_per_column self).
  destruct (Z.eq_dec (c * r) 0) as [E | E]; [rewrite E; reflexivity |].
  assert (c <> 0) by (intros Hc; apply E; rewrite Hc; reflexivity).
  rewrite !pymod_nonzero by assumption.
  rewrite Z.mod_add by assumption.
  replace (label_count + k * (c * r)) with (label_count + k * r * c) by ring.
  now rewrite Z.mod_add by assumption.
Qed.

Lemma labels_apart_on_sheet (f : format_spec) sc ec ct p s page_height :
  forallb (fun i =>
             forallb (fun j => (i =? j) || labels_apart (generator_with f sc ec ct p s)
                                             page_height i j)
               (py_range 0 (labels_per_row f * labels_per_column f)))
    (py_range 0 (labels_per_row f * labels_per_column f)) = true ->
  forall i j,
    0 <= i < labels_per_row f * labels_per_column f ->
    0 <= j < labels_per_row f * labels_per_column f ->
    i <> j ->
    labels_apart (generator_with f sc ec ct p s) page_height i j = true.
Proof.
  intros H i j Hi Hj Hne.
  rewrite forallb_forall in H. specialize (H i ltac:(apply In_py_range; lia)).
  rewrite forallb_forall in H. specialize (H j ltac:(apply In_py_range; lia)).
  apply orb_prop in H as [H | H]; [apply Z.eqb_eq in H; contradiction | assumption].
Qed.

(** X9: on a letter page and on an A4 page, for each of the three presets,
    the rectangles of two different labels of one sheet do not overlap: one
    ends where the other begins, or before, in width or in height. *)
Theorem labels_do_not_overlap sc ec ct lf p s self page_size i j :
  init sc ec ct lf p s = ret self ->
  page_size = letter \/ page_size = A4 ->
  0 <= i < perSheet self ->
  0 <= j < perSheet self ->
  i <> j ->
  labels_apart self (snd page_size) i j = true.
Proof.
  intros Hi Hpage Hb1 Hb2 Hne. apply init_inv in Hi as (f & Hf & ->).
  unfold perSheet, columnsPerSheet, rowsPerSheet, generator_with in Hb1, Hb2.
  cbn [self_labels_per_row self_labels_per_column] in Hb1, Hb2.
  apply labels_apart_on_sheet; try assumption.
  apply dict_get_presets in Hf as [-> | [-> | ->]]; destruct Hpage as [-> | ->];
    vm_compute; reflexivity.
Qed.

End Grid.

Lemma label_cell_addresses_rank_witness :
  exists row col x y,
    AdvancedLabelGenerator.label_position barcode_generator (snd letter) 47
    = ret (row, col, x, y)
    /\ 0 <= row < AdvancedLabelGenerator.self_labels_per_column barcode_generator
    /\ 0 <= col < AdvancedLabelGenerator.self_labels_per_row barcode_generator
    /\ row * AdvancedLabelGenerator.self_labels_per_row barcode_generator + col
       = 47 mod perSheet barcode_generator.
Proof.
  apply (label_cell_addresses_rank 1 10 "barcode" "avery5160" "TEST-" "" barcode_generator
           (snd letter) 47 eq_refl).
Defined.

Lemma labels_do_not_overlap_witness :
  labels_apart barcode_generator (snd A4) 4 7 = true.
Proof.
  apply (labels_do_not_overlap 1 10 "barcode" "avery5160" "TEST-" "" barcode_generator
           A4 4 7 eq_refl); [right; reflexivity | vm_compute; split; [discriminate | reflexivity]
           | vm_compute; split; [discriminate | reflexivity] | discriminate].
Defined.

(** * Distinct identifiers, kinds of glyph, advertised formats *)

Section Identifiers.
Import AdvancedLabelGenerator.

Lemma append_cancel_l (p s1 s2 : string) : (p ++ s1 = p ++ s2)%string -> s1 = s2.
Proof. induction p as [| c p IH]; cbn; [auto | intros [= H]; auto]. Qed.

Lemma length_append (s1 s2 : string) :
  String.length (s1 ++ s2) = (String.length s1 + String.length s2)%nat.
Proof. induction s1 as [| c s1 IH]; cbn; [reflexivity | now rewrite IH]. Qed.

Lemma append_cancel_r (s1 s2 q : string) : (s1 ++ q = s2 ++ q)%string -> s1 = s2.
Proof.
  revert s2. induction s1 as [| c s1 IH]; intros s2 H.
  - apply (f_equal String.length) in H. rewrite !length_append in H.
    destruct s2; [reflexivity | cbn in H; lia].
  - destruct s2 as [| c2 s2].
    + apply (f_equal String.length) in H. rewrite !length_append in H. cbn in H. lia.
    + cbn in H. injection H as -> H. f_equal. now apply IH.
Qed.

Lemma str_of_int_inj (a b : Z) : str_of_int a = str_of_int b -> a = b.
Proof.
  unfold str_of_int. intros H.
  assert (Hnil : forall z, Z.to_int z <> Decimal.Pos Decimal.Nil
                           /\ Z.to_int z <> Decimal.Neg Decimal.Nil).
  { intros [| q | q]; cbn; split; try discriminate;
      intros [= E]; now apply (DecimalPos.Unsigned.to_uint_nonnil q). }
  apply (f_equal NilZero.int_of_string) in H.
  rewrite !NilZero.isi in H by apply Hnil.
  injection H as H. now apply DecimalZ.to_int_inj.
Qed.

(** X10: with the same prefix and suffix, two different integers never get
    the same formatted code, whatever the affixes hold (digits included). *)
Theorem format_code_distinct (self : self_t) (a b : Z) :
  a <> b -> format_code self a <> format_code self b.
Proof.
  intros Hne H. apply Hne. unfold format_code in H. cbn [String.concat] in H.
  apply append_cancel_l in H. cbn [append] in H.
  change (str_of_int a ++ suffix self = str_of_int b ++ suffix self)%string in H.
  apply append_cancel_r in H. now apply str_of_int_inj.
Qed.

Section KindOfGlyph.
Context {glyphs : GlyphProvider}.


End KindOfGlyph.

Ltac each_text Hin :=
  vm_compute in Hin;
  repeat (destruct Hin as [<- | Hin];
          [do 4 eexists; split; [vm_compute; reflexivity |];
           vm_compute; repeat split |]);
  destruct Hin.

(** X12: for every label of the three presets, on a letter or an A4 page,
    the point on which the text is centred lies within the rectangle of the
    label, and the top of the QR square and the top of the barcode bars are
    at or below the baseline of the text. *)
Theorem text_above_glyph sc ec ct lf p s self page_size label_count :
  init sc ec ct lf p s = ret self ->
  page_size = letter \/ page_size = A4 ->
  exists row col x y,
    label_position self (snd page_size) label_count = ret (row, col, x, y)
    /\ let text_x := (x + self_label_width self / 2)%float in
       let text_y := (y + self_label_height self - 0.15 * inch)%float in
       ((x <=? text_x) && (text_x <=? x + self_label_width self)
        && (y <=? text_y) && (text_y <=? y + self_label_height self))%float = true
       /\ (let '(_, qr_y, qr_size) := qr_box self x y in
           (qr_y + qr_size <=? text_y)%float = true)
       /\ (let '(_, barcode_y, _, barcode_height) := barcode_box self x y in
           (barcode_y + barcode_height * 0.8 <=? text_y)%float = true).
Proof.
  intros Hi Hpage.
  rewrite (label_position_on_sheet _ _ _ (init_small_grid _ _ _ _ _ _ _ Hi)).
  assert (Hin : In (label_count mod perSheet self) (py_range 0 (perSheet self))).
  { apply In_py_range. apply Z.mod_pos_bound.
    destruct (init_small_grid _ _ _ _ _ _ _ Hi) as (Hc & Hr & _).
    unfold perSheet, columnsPerSheet, rowsPerSheet. nia. }
  remember (label_count mod perSheet self) as index eqn:E. clear E.
  apply init_inv in Hi as (f & Hf & ->).
  apply dict_get_presets in Hf as [-> | [-> | ->]]; destruct Hpage as [-> | ->];
    each_text Hin.
Qed.

(** X13: the formats that [GET /api/formats] advertises are the keys of the
    registry, in the same order, and the [labels_per_sheet] advertised for a
    format is the number of labels that the generator built for it puts on
    a sheet. *)
Theorem advertised_formats_are_registered :
  map info_id get_formats = map fst LABEL_FORMATS
  /\ forall info sc ec ct p s,
       In info get_formats ->
       exists self,
         init sc ec ct (info_id info) p s = ret self
         /\ perSheet self = info_labels_per_sheet info.
Proof.
  split; [reflexivity |].
  intros info sc ec ct p s [<- | [<- | [<- | []]]]; eexists; split; reflexivity.
Qed.

End Identifiers.

Lemma format_code_distinct_witness :
  AdvancedLabelGenerator.format_code barcode_generator 1
  <> AdvancedLabelGenerator.format_code barcode_generator 10.
Proof. apply (format_code_distinct barcode_generator 1 10). discriminate. Defined.


Lemma text_above_glyph_witness :
  exists row col x y,
    AdvancedLabelGenerator.label_position qrcode_generator (snd A4) 13 = ret (row, col, x, y)
    /\ let text_x := (x + AdvancedLabelGenerator.self_label_width qrcode_generator / 2)%float in
       let text_y := (y + AdvancedLabelGenerator.self_label_height qrcode_generator
                      - 0.15 * inch)%float in
       ((x <=? text_x)
        && (text_x <=? x + AdvancedLabelGenerator.self_label_width qrcode_generator)
        && (y <=? text_y)
        && (text_y <=? y + AdvancedLabelGenerator.self_label_height qrcode_generator))%float
       = true
       /\ (let '(_, qr_y, qr_size) := AdvancedLabelGenerator.qr_box qrcode_generator x y in
           (qr_y + qr_size <=? text_y)%float = true)
       /\ (let '(_, barcode_y, _, barcode_height) :=
             AdvancedLabelGenerator.barcode_box qrcode_generator x y in
           (barcode_y + barcode_height * 0.8 <=? text_y)%float = true).
Proof.
  apply (text_above_glyph 100 120 "qrcode" "avery5163" "QR-" "-2024" qrcode_generator
           A4 13 eq_refl).
  right. reflexivity.
Defined.

(** * The output directory *)

Section Cleanup.

Lemma lookup_entry_absent (d : list dir_entry) (filename : string) :
  ~ In filename (map entry_name d) -> lookup_entry d filename = None.
Proof.
  induction d as [| e d IH]; cbn; [reflexivity |]. intros H.
  destruct (String.eqb_spec filename (entry_name e)) as [-> | _]; [tauto |].
  apply IH. tauto.
Qed.

Lemma lookup_entry_middle (kept rest : list dir_entry) (e : dir_entry) :
  ~ In (entry_name e) (map entry_name kept) ->
  lookup_entry (kept ++ e :: rest) (entry_name e) = Some e.
Proof.
  induction kept as [| k kept IH]; cbn; intros H.
  - now rewrite String.eqb_refl.
  - destruct (String.eqb_spec (entry_name e) (entry_name k)) as [E | _]; [| apply IH];
      intuition congruence.
Qed.

Lemma filter_all {A : Type} (f : A -> bool) (l : list A) :
  (forall x, In x l -> f x = true) -> filter f l = l.
Proof.
  induction l as [| a l IH]; cbn; intros H; [reflexivity |].
  rewrite (H a) by auto. f_equal. auto.
Qed.

Lemma names_apart (kept rest : list dir_entry) (e : dir_entry) :
  NoDup (map entry_name (kept ++ e :: rest)) ->
  ~ In (entry_name e) (map entry_name kept)
  /\ ~ In (entry_name e) (map entry_name rest)
  /\ NoDup (map entry_name (kept ++ rest)).
Proof.
  rewrite !map_app. cbn [map]. intros H.
  pose proof (NoDup_remove_1 _ _ _ H) as H1. pose proof (NoDup_remove_2 _ _ _ H) as H2.
  rewrite in_app_iff in H2. tauto.
Qed.

Lemma os_remove_middle (kept rest : list dir_entry) (e : dir_entry) :
  NoDup (map entry_name (kept ++ e :: rest)) ->
  os_remove (kept ++ e :: rest) (entry_name e) = Some (kept ++ rest).
Proof.
  intros H. destruct (names_apart _ _ _ H) as (Hk & Hr & _).
  unfold os_remove. rewrite lookup_entry_middle by assumption.
  rewrite filter_app. cbn [filter]. rewrite String.eqb_refl. cbn [negb].
  rewrite !filter_all; [reflexivity | |]; intros x Hx;
    destruct (String.eqb_spec (entry_name e) (entry_name x)) as [E | _];
    try reflexivity; exfalso; [apply Hr | apply Hk]; rewrite E; now apply in_map.
Qed.

Lemma cleanup_loop_visits (current_time : float) (rest : list dir_entry) :
  forall (kept : list dir_entry) (deleted_count : Z),
    NoDup (map entry_name (kept ++ rest)) ->
    cleanup_loop current_time (map entry_name rest) (kept ++ rest) deleted_count
    = Some (kept ++ filter (fun e => negb (expired current_time e)) rest,
            deleted_count + len (filter (expired current_time) rest)).
Proof.
  induction rest as [| e rest IH]; intros kept deleted_count H.
  - cbn. unfold len. cbn. now rewrite Z.add_0_r.
  - destruct (names_apart _ _ _ H) as (Hk & Hr & H').
    cbn [map cleanup_loop filter]. rewrite lookup_entry_middle by assumption.
    assert (Hexp : expired current_time e
                   = entry_is_file e && (3600 <? current_time - entry_mtime e)%float)
      by reflexivity.
    destruct (entry_is_file e); cbn [andb] in Hexp.
    + destruct (3600 <? current_time - entry_mtime e)%float; rewrite Hexp; cbn [negb].
      * rewrite os_remove_middle by assumption. rewrite IH by assumption.
        f_equal. f_equal. unfold len. cbn [List.length]. lia.
      * replace (kept ++ e :: rest) with ((kept ++ [e]) ++ rest) in *
          by now rewrite <- app_assoc.
        rewrite IH by assumption. now rewrite <- app_assoc.
    + rewrite Hexp; cbn [negb].
      replace (kept ++ e :: rest) with ((kept ++ [e]) ++ rest) in *
        by now rewrite <- app_assoc.
      rewrite IH by assumption. now rewrite <- app_assoc.
Qed.

Lemma cleanup_old_files_result (current_time : float) (d : list dir_entry) :
  NoDup (map entry_name d) ->
  cleanup_old_files current_time d
  = Some (filter (fun e => negb (expired current_time e)) d,
          len (filter (expired current_time) d)).
Proof. intros H. apply (cleanup_loop_visits current_time d [] 0 H). Qed.

Lemma lookup_entry_filter (f : dir_entry -> bool) (d : list dir_entry) (filename : string) :
  NoDup (map entry_name d) ->
  lookup_entry (filter f d) filename
  = match lookup_entry d filename with
    | Some e => if f e then Some e else None
    | None => None
    end.
Proof.
  induction d as [| e d IH]; cbn [map filter lookup_entry]; intros H; [reflexivity |].
  inversion H as [| ? ? Hn Hd]; subst.
  destruct (String.eqb_spec filename (entry_name e)) as [-> | Hne].
  - destruct (f e); cbn [lookup_entry].
    + now rewrite String.eqb_refl.
    + rewrite IH by assumption. now rewrite lookup_entry_absent.
  - destruct (f e); cbn [lookup_entry].
    + destruct (String.eqb_spec filename (entry_name e)); [contradiction | now apply IH].
    + now apply IH.
Qed.

(** X14: in a directory whose names are distinct, [cleanup_old_files] removes
    exactly the regular files whose age is above 3600 seconds, keeps every
    other entry (directories and younger files) in its place, never fails,
    and reports the number of files it removed. *)
Theorem cleanup_removes_expired_files (current_time : float) (d : list dir_entry) :
  NoDup (map entry_name d) ->
  cleanup_old_files current_time d
  = Some (filter (fun e => negb (expired current_time e)) d,
          len (filter (expired current_time) d)).
Proof. apply cleanup_old_files_result. Qed.


(** X16: the directory that a cleanup leaves is shorter than the one it found
    by the number of files it reports, and a second cleanup at the same time
    removes nothing more. *)
Theorem cleanup_count_and_repeat current_time d d' deleted_count :
  NoDup (map entry_name d) ->
  cleanup_old_files current_time d = Some (d', deleted_count) ->
  len d' = len d - deleted_count
  /\ cleanup_old_files current_time d' = Some (d', 0).
Proof.
  intros H Hc. rewrite cleanup_old_files_result in Hc by assumption.
  injection Hc as <- <-. split.
  - unfold len. clear H. induction d as [| e d IH]; cbn [filter]; [reflexivity |].
    destruct (expired current_time e); cbn [negb List.length]; lia.
  - rewrite cleanup_old_files_result.
    + f_equal. f_equal.
      * apply filter_all. intros x Hx. apply filter_In in Hx. tauto.
      * clear H. induction d as [| e d IH]; cbn [filter]; [reflexivity |].
        destruct (expired current_time e) eqn:E; cbn [negb filter]; [exact IH |].
        now rewrite E.
    + clear - H. induction d as [| e d IH]; cbn [filter map]; [constructor |].
      inversion H as [| ? ? Hn Hd]; subst.
      destruct (expired current_time e); cbn [negb map]; [auto |].
      constructor; [| auto]. intros Hin. apply Hn.
      apply in_map_iff in Hin as (x & Ex & Hx). apply filter_In in Hx as [Hx _].
      rewrite <- Ex. now apply in_map.
Qed.

End Cleanup.

Definition sample_directory : list dir_entry :=
  [ mkEntry "labels_20240101_120000_ab12cd34.pdf" true 1000;
    mkEntry "archive" false 0;
    mkEntry "labels_20240101_130500_ef56ab78.pdf" true 4900 ].

Lemma cleanup_removes_expired_files_witness :
  cleanup_old_files 5000 sample_directory
  = Some (filter (fun e => negb (expired 5000 e)) sample_directory,
          len (filter (expired 5000) sample_directory)).
Proof.
  apply (cleanup_removes_expired_files 5000 sample_directory).
  repeat constructor; cbn; intuition discriminate.
Defined.


Lemma cleanup_count_and_repeat_witness :
  len [ mkEntry "archive" false 0;
        mkEntry "labels_20240101_130500_ef56ab78.pdf" true 4900 ]
  = len sample_directory - 1
  /\ cleanup_old_files 5000
       [ mkEntry "archive" false 0;
         mkEntry "labels_20240101_130500_ef56ab78.pdf" true 4900 ]
     = Some ([ mkEntry "archive" false 0;
               mkEntry "labels_20240101_130500_ef56ab78.pdf" true 4900 ], 0).
Proof.
  apply (cleanup_count_and_repeat 5000 sample_directory).
  - repeat constructor; cbn; intuition discriminate.
  - vm_compute. reflexivity.
Defined.
